(** * diego-ssh: the session channel handler

    A shallow embedding of [handlers/session_channel_handler.go]: the
    per-channel session record, the request handlers, command creation,
    the child environment vector, exit reporting and teardown, together
    with the properties the specification states about them. *)

From Stdlib Require Import ZArith Ascii String List Lia Bool.
From stdpp Require Import gmap strings list fin_maps.

Local Open Scope Z_scope.
Local Open Scope string_scope.
Local Open Scope list_scope.

(** ** Machine integers *)

Module Wire.

(** Go's [uint32(x)] and [uint16(x)] conversions. *)
Definition to_uint32 (z : Z) : Z := z mod 2 ^ 32.
Definition to_uint16 (z : Z) : Z := z mod 2 ^ 16.

Definition byte_val (c : ascii) : Z := Z.of_N (N_of_ascii c).
Definition byte_of (z : Z) : ascii := ascii_of_N (Z.to_N (z mod 256)).

(** A decoder consumes a prefix of the payload and hands back the rest. *)
Definition parser (A : Type) : Type := string -> option (A * string).

Definition pret {A} (a : A) : parser A := fun s => Some (a, s).
Definition pbind {A B} (p : parser A) (k : A -> parser B) : parser B :=
  fun s => match p s with
           | Some (a, rest) => k a rest
           | None => None
           end.

Notation "'let*' x := p 'in' k" := (pbind p (fun x => k))
  (at level 10, x name, p at level 100, k at level 200).

(** Big-endian 32-bit integer. *)
Definition parseUint32 : parser Z := fun s =>
  match s with
  | String a (String b (String c (String d rest))) =>
      Some (Z.lor (Z.shiftl (byte_val a) 24)
             (Z.lor (Z.shiftl (byte_val b) 16)
               (Z.lor (Z.shiftl (byte_val c) 8) (byte_val d))), rest)
  | _ => None
  end.

Fixpoint take_bytes (n : nat) (s : string) : option (string * string) :=
  match n with
  | O => Some (EmptyString, s)
  | S n' =>
      match s with
      | EmptyString => None
      | String c s' =>
          match take_bytes n' s' with
          | Some (hd, tl) => Some (String c hd, tl)
          | None => None
          end
      end
  end.

(** Length-prefixed string: a 32-bit length and that many bytes. *)
Definition parseString : parser string :=
  let* n := parseUint32 in take_bytes (Z.to_nat n).

(** A struct decoder succeeds only when the whole payload is consumed. *)
Definition finish {A} (p : parser A) (payload : string) : option A :=
  match p payload with
  | Some (a, EmptyString) => Some a
  | _ => None
  end.

Definition marshalUint32 (z : Z) : string :=
  String (byte_of (Z.shiftr z 24))
    (String (byte_of (Z.shiftr z 16))
      (String (byte_of (Z.shiftr z 8))
        (String (byte_of z) EmptyString))).

Definition marshalString (s : string) : string :=
  marshalUint32 (Z.of_nat (String.length s)) +:+ s.

Definition marshalBool (b : bool) : string :=
  String (if b then "001"%char else "000"%char) EmptyString.

End Wire.

Import Wire.

(** ** Request payloads *)

Record envMsg := { Name : string; Value : string }.
Record signalMsg := { Signal : string }.
Record ptyRequestMsg := {
  Term : string;
  Columns : Z;
  Rows : Z;
  Width : Z;
  Height : Z;
  Modelist : string
}.
Record windowChangeMsg := {
  wc_Columns : Z;
  wc_Rows : Z;
  wc_WidthPx : Z;
  wc_HeightPx : Z
}.
Record execMsg := { Command : string }.

Module Unmarshal.

(** Modelled from the spec: [ssh.Unmarshal] belongs to the SSH library,
    whose source is not part of this repository.  The payload schemas are
    those of the request table: strings are length-prefixed (big-endian
    32-bit length, then the bytes), integers are big-endian 32-bit, the
    fields come in declaration order and nothing may follow the last one. *)
Definition env : string -> option envMsg :=
  finish (let* n := parseString in
          let* v := parseString in
          pret {| Name := n; Value := v |}).

(** Modelled from the spec: the signal payload, one string. *)
Definition signal : string -> option signalMsg :=
  finish (let* s := parseString in pret {| Signal := s |}).

(** Modelled from the spec: the pty-req payload, a string, four integers
    and a string. *)
Definition ptyRequest : string -> option ptyRequestMsg :=
  finish (let* t := parseString in
          let* c := parseUint32 in
          let* r := parseUint32 in
          let* w := parseUint32 in
          let* h := parseUint32 in
          let* m := parseString in
          pret {| Term := t; Columns := c; Rows := r;
                  Width := w; Height := h; Modelist := m |}).

(** Modelled from the spec: the window-change payload, four integers. *)
Definition windowChange : string -> option windowChangeMsg :=
  finish (let* c := parseUint32 in
          let* r := parseUint32 in
          let* w := parseUint32 in
          let* h := parseUint32 in
          pret {| wc_Columns := c; wc_Rows := r;
                  wc_WidthPx := w; wc_HeightPx := h |}).

(** Modelled from the spec: the exec payload, one string. *)
Definition exec : string -> option execMsg :=
  finish (let* c := parseString in pret {| Command := c |}).

End Unmarshal.

(** ** The scp pattern *)

(** Go's [\s] is the class [[\t\n\f\r ]]. *)
Definition is_space (c : ascii) : bool :=
  let n := N_of_ascii c in
  (N.eqb n 9 || N.eqb n 10 || N.eqb n 12 || N.eqb n 13 || N.eqb n 32)%bool.

Fixpoint skip_space (s : string) : string :=
  match s with
  | String c s' => if is_space c then skip_space s' else s
  | EmptyString => s
  end.

(** [scpRegex.MatchString] for the pattern [^\s*scp($|\s+)]: leading
    white space, the word scp, then the end of the text or white space. *)
Definition scpRegex_MatchString (s : string) : bool :=
  match skip_space s with
  | String "s" (String "c" (String "p" rest)) =>
      match rest with
      | EmptyString => true
      | String c _ => is_space c
      end
  | _ => false
  end.

(** ** Signals and wait statuses *)

Module Signals.

(** Modelled from the spec: the tables [SyscallSignals] and [SSHSignals]
    are declared in a file that is not part of src.  The thirteen SSH
    signal names map to their POSIX namesakes in both directions (Linux
    numbering); an unknown name yields signal 0 and an unlisted signal
    yields the empty name, as a Go map lookup does for a missing key. *)
Definition table : list (string * Z) :=
  [("ABRT", 6); ("ALRM", 14); ("FPE", 8); ("HUP", 1); ("ILL", 4);
   ("INT", 2); ("KILL", 9); ("PIPE", 13); ("QUIT", 3); ("SEGV", 11);
   ("TERM", 15); ("USR1", 10); ("USR2", 12)].

(** Modelled from the spec: the lookup of an SSH signal name. *)
Definition SyscallSignals (name : string) : Z :=
  match List.find (fun p => String.eqb (fst p) name) table with
  | Some p => snd p
  | None => 0
  end.

(** Modelled from the spec: the lookup of an operating-system signal. *)
Definition SSHSignals (sig : Z) : string :=
  match List.find (fun p => Z.eqb (snd p) sig) table with
  | Some p => fst p
  | None => ""
  end.

Definition SIGHUP : Z := 1.

End Signals.

Module WaitStatus.

(** [syscall.WaitStatus] on Linux: a 32-bit word. *)
Definition mask : Z := 127.
Definition core : Z := 128.
Definition exited : Z := 0.
Definition stopped : Z := 127.
Definition shift : Z := 8.

Definition Exited (w : Z) : bool := Z.eqb (Z.land w mask) exited.
Definition Signaled (w : Z) : bool :=
  (negb (Z.eqb (Z.land w mask) stopped) && negb (Z.eqb (Z.land w mask) exited))%bool.
Definition CoreDump (w : Z) : bool :=
  (Signaled w && negb (Z.eqb (Z.land w core) 0))%bool.
Definition ExitStatus (w : Z) : Z :=
  if Exited w then Z.land (Z.shiftr w shift) 255 else -1.
Definition Signal (w : Z) : Z :=
  if Signaled w then Z.land w mask else -1.

End WaitStatus.

(** The [error] values [sendExitMessage] tells apart: an [*exec.ExitError]
    whose [Sys()] is a wait status, an [*exec.ExitError] whose [Sys()] is
    something else, and any other error. *)
Inductive error : Type :=
| ExitError (sys : option Z)
| OtherError.

(** ** Data model *)

(** An incoming [ssh.Request]. *)
Record Request := {
  Type_ : string;
  WantReply : bool;
  Payload : string
}.

(** [exec.Cmd], as far as the handler fills it in. *)
Record Cmd := {
  Path : string;
  Args : list string;
  Env : list string
}.

(** [exec.Command(name, arg...)]. *)
Definition exec_Command (name : string) (args : list string) : Cmd :=
  {| Path := name; Args := name :: args; Env := [] |}.

(** Go maps are references.  A map value is a location in a store of
    maps; two variables holding the same location see each other's
    writes.  Every location holds a map: the handler is built with a
    non-nil [defaultEnv]. *)
Definition loc := nat.
Definition heap := loc -> gmap string string.

Definition heap_set (h : heap) (l : loc) (m : gmap string string) : heap :=
  fun l' => if Nat.eqb l' l then m else h l'.

Definition Channel := nat.
Definition File := nat.

Record SessionChannelHandler := {
  shellLocator_ShellPath : string;
  defaultEnv : loc;
  keepalive : Z
}.

Record session := {
  complete : bool;
  keepaliveDuration : Z;
  keepaliveStopCh : option nat;
  shellPath : string;
  channel : Channel;
  env : loc;
  command : option Cmd;
  allocPty : bool;
  ptyRequest : ptyRequestMsg;
  ptyMaster : option File
}.

Definition zero_ptyRequest : ptyRequestMsg :=
  {| Term := ""; Columns := 0; Rows := 0; Width := 0; Height := 0;
     Modelist := "" |}.

Definition newSession (handler : SessionChannelHandler) (ch : Channel)
    (ka : Z) : session :=
  {| complete := false;
     keepaliveDuration := ka;
     keepaliveStopCh := None;
     shellPath := shellLocator_ShellPath handler;
     channel := ch;
     env := defaultEnv handler;
     command := None;
     allocPty := false;
     ptyRequest := zero_ptyRequest;
     ptyMaster := None |}.

Definition set_command (c : option Cmd) (s : session) : session :=
  {| complete := complete s; keepaliveDuration := keepaliveDuration s;
     keepaliveStopCh := keepaliveStopCh s; shellPath := shellPath s;
     channel := channel s; env := env s; command := c;
     allocPty := allocPty s; ptyRequest := ptyRequest s;
     ptyMaster := ptyMaster s |}.

Definition set_pty (a : bool) (p : ptyRequestMsg) (s : session) : session :=
  {| complete := complete s; keepaliveDuration := keepaliveDuration s;
     keepaliveStopCh := keepaliveStopCh s; shellPath := shellPath s;
     channel := channel s; env := env s; command := command s;
     allocPty := a; ptyRequest := p; ptyMaster := ptyMaster s |}.

Definition set_ptyMaster (m : option File) (s : session) : session :=
  {| complete := complete s; keepaliveDuration := keepaliveDuration s;
     keepaliveStopCh := keepaliveStopCh s; shellPath := shellPath s;
     channel := channel s; env := env s; command := command s;
     allocPty := allocPty s; ptyRequest := ptyRequest s; ptyMaster := m |}.

Definition set_complete (b : bool) (s : session) : session :=
  {| complete := b; keepaliveDuration := keepaliveDuration s;
     keepaliveStopCh := keepaliveStopCh s; shellPath := shellPath s;
     channel := channel s; env := env s; command := command s;
     allocPty := allocPty s; ptyRequest := ptyRequest s;
     ptyMaster := ptyMaster s |}.

Definition set_size (cols rows : Z) (p : ptyRequestMsg) : ptyRequestMsg :=
  {| Term := Term p; Columns := cols; Rows := rows; Width := Width p;
     Height := Height p; Modelist := Modelist p |}.

(** What a session does to the outside world, in program order. *)
Inductive effect : Type :=
| EReply (ok : bool)
| ESendRequest (ch : Channel) (name : string) (wantReply : bool) (payload : string)
| EChannelClose (ch : Channel)
| EFileClose (f : File)
| ECloseStopCh (c : nat)
| ESignal (cmd : Cmd) (sig : Z)
| ESetWinsize (f : File) (width height : Z)
| ESetTerminalAttributes (f : File) (modelist : string)
| EOpenPty
| EStdinPipe (cmd : Cmd)
| EStart (cmd : Cmd) (pty : bool)
| ESCPNewFromCommand (cmd : string)
| ESCPCopy (cmd : string).

(** The answers of the operating system and of the copier to the calls
    made while one request is handled.  Errors of [runner.Signal] and of
    the window-size ioctl are only logged and need no entry. *)
Record outcome := {
  stdin_pipe_fails : bool;
  start_fails : bool;
  pty_open : option File;
  scp_new_fails : bool;
  scp_copy_fails : bool
}.

(** The state one session runs in: the store of maps, the session
    record, and the command the waiting goroutine of [executeShell] is
    blocked on, if that goroutine has been started and has not finished. *)
Record state := {
  st_heap : heap;
  st_sess : session;
  st_waiter : option Cmd
}.

Definition with_sess (s : session) (st : state) : state :=
  {| st_heap := st_heap st; st_sess := s; st_waiter := st_waiter st |}.
Definition with_heap (h : heap) (st : state) : state :=
  {| st_heap := h; st_sess := st_sess st; st_waiter := st_waiter st |}.
Definition with_waiter (w : option Cmd) (st : state) : state :=
  {| st_heap := st_heap st; st_sess := st_sess st; st_waiter := w |}.

(** Go iterates over a map in an unspecified order: any enumeration of
    its entries. *)
Record map_order := {
  range :> gmap string string -> list (string * string);
  range_perm : forall m, range m ≡ₚ map_to_list m
}.

Definition canonical_order : map_order :=
  {| range := map_to_list;
     range_perm := fun m => Permutation_refl (map_to_list m) |}.

(** ** The session's operations *)

Section Session.

(** The iteration order of maps and the daemon's own process
    environment ([os.Getenv]). *)
Variable order : map_order.
Variable getenv : string -> string.

(** [request.Reply]: the SSH library sends nothing when the peer asked
    for no reply. *)
Definition Reply (request : Request) (ok : bool) : list effect :=
  if WantReply request then [EReply ok] else [].

(** [fmt.Sprintf("%s=%s", k, v)]. *)
Definition entry (k v : string) : string := k +:+ "=" +:+ v.

Definition peer_entries (m : gmap string string) : list (string * string) :=
  List.filter
    (fun kv => (negb (String.eqb (fst kv) "HOME") && negb (String.eqb (fst kv) "USER"))%bool)
    (order m).

Definition environment (h : heap) (sess : session) : list string :=
  let env0 : list string := [] in
  let env1 := env0 ++ ["PATH=/bin:/usr/bin"] in
  let env2 := env1 ++ ["LANG=en_US.UTF8"] in
  let env3 := env2 ++ List.map (fun kv => entry (fst kv) (snd kv))
                               (peer_entries (h (env sess))) in
  let env4 := env3 ++ [entry "HOME" (getenv "HOME")] in
  env4 ++ [entry "USER" (getenv "USER")].

(** [createCommand]: [inr] is the error "command already started". *)
Definition createCommand (h : heap) (sess : session) (args : list string)
    : session * (Cmd + string) :=
  match command sess with
  | Some _ => (sess, inr "command already started")
  | None =>
      let cmd0 := exec_Command (shellPath sess) args in
      let cmd := {| Path := Path cmd0; Args := Args cmd0;
                    Env := environment h sess |} in
      (set_command (Some cmd) sess, inl cmd)
  end.

Definition exitStatusMsg (status : Z) : string := marshalUint32 status.

Definition exitSignalMsg (sig : string) (coreDumped : bool)
    (err lang : string) : string :=
  marshalString sig +:+ marshalBool coreDumped
    +:+ marshalString err +:+ marshalString lang.

Definition sendExitMessage (sess : session) (err : option error) : list effect :=
  match err with
  | None =>
      [ESendRequest (channel sess) "exit-status" false (exitStatusMsg 0)]
  | Some OtherError =>
      [ESendRequest (channel sess) "exit-status" false (exitStatusMsg 255)]
  | Some (ExitError None) =>
      [ESendRequest (channel sess) "exit-status" false (exitStatusMsg 255)]
  | Some (ExitError (Some waitStatus)) =>
      if WaitStatus.Signaled waitStatus then
        [ESendRequest (channel sess) "exit-signal" false
           (exitSignalMsg (Signals.SSHSignals (WaitStatus.Signal waitStatus))
              (WaitStatus.CoreDump waitStatus) "" "")]
      else
        [ESendRequest (channel sess) "exit-status" false
           (exitStatusMsg (to_uint32 (WaitStatus.ExitStatus waitStatus)))]
  end.

Definition sendSCPExitMessage (sess : session) (err : bool) : list effect :=
  let exitMessage := if err then 1 else 0 in
  [ESendRequest (channel sess) "exit-status" false (exitStatusMsg exitMessage)].

Definition setWindowSize (pseudoTty : File) (columns rows : Z) : list effect :=
  [ESetWinsize pseudoTty (to_uint16 columns) (to_uint16 rows)].

(** [destroy]: the channel is the one the accept call returned, so its
    nil test always passes; waiting for the I/O copiers has no effect on
    the session record. *)
Definition destroy (sess : session) : session * list effect :=
  if complete sess then (sess, [])
  else
    let sess1 := set_complete true sess in
    let e1 := [EChannelClose (channel sess1)] in
    let '(sess2, e2) :=
      match ptyMaster sess1 with
      | Some f => (set_ptyMaster None sess1, [EFileClose f])
      | None => (sess1, [])
      end in
    let e3 :=
      match keepaliveStopCh sess2 with
      | Some c => [ECloseStopCh c]
      | None => []
      end in
    (sess2, e1 ++ e2 ++ e3).

(** [run]: launch without a pseudoterminal. *)
Definition run (o : outcome) (sess : session) (cmd : Cmd)
    : list effect * option error :=
  if stdin_pipe_fails o then ([EStdinPipe cmd], Some OtherError)
  else if start_fails o then ([EStdinPipe cmd; EStart cmd false], Some OtherError)
  else ([EStdinPipe cmd; EStart cmd false], None).

(** Modelled from the spec: [runWithPty] is defined in a file that is not
    part of src.  A master/slave pair is opened, the stored mode list and
    the initial window size are applied to the master, the child is
    started on the slave, and the master is kept on the session when the
    launch succeeds; a failure to allocate the pair or to start the child
    is a launch error. *)
Definition runWithPty (o : outcome) (sess : session) (cmd : Cmd)
    : session * list effect * option error :=
  match pty_open o with
  | None => (sess, [EOpenPty], Some OtherError)
  | Some master =>
      let setup :=
        [EOpenPty; ESetTerminalAttributes master (Modelist (ptyRequest sess))]
        ++ setWindowSize master (Columns (ptyRequest sess)) (Rows (ptyRequest sess))
        ++ [EStart cmd true] in
      if start_fails o then (sess, setup, Some OtherError)
      else (set_ptyMaster (Some master) sess, setup, None)
  end.

Definition executeShell (o : outcome) (request : Request) (args : list string)
    (st : state) : state * list effect :=
  match createCommand (st_heap st) (st_sess st) args with
  | (_, inr _) =>
      (st, if WantReply request then Reply request false else [])
  | (sess1, inl cmd) =>
      let e1 := if WantReply request then Reply request true else [] in
      let '(sess2, e2, err) :=
        if allocPty sess1 then runWithPty o sess1 cmd
        else let '(e, err) := run o sess1 cmd in (sess1, e, err) in
      match err with
      | Some _ =>
          let e3 := sendExitMessage sess2 err in
          let '(sess3, e4) := destroy sess2 in
          (with_sess sess3 st, e1 ++ e2 ++ e3 ++ e4)
      | None =>
          (with_waiter (Some cmd) (with_sess sess2 st), e1 ++ e2)
      end
  end.

Definition executeSCP (o : outcome) (cmd : string) (request : Request)
    (st : state) : state * list effect :=
  let sess := st_sess st in
  let e1 := if WantReply request then Reply request true else [] in
  let '(e2, err) :=
    if scp_new_fails o then ([ESCPNewFromCommand cmd], true)
    else ([ESCPNewFromCommand cmd; ESCPCopy cmd], scp_copy_fails o) in
  let e3 := sendSCPExitMessage sess err in
  let '(sess', e4) := destroy sess in
  (with_sess sess' st, e1 ++ e2 ++ e3 ++ e4).

Definition handleEnvironmentRequest (request : Request) (st : state)
    : state * list effect :=
  match Unmarshal.env (Payload request) with
  | None => (st, Reply request false)
  | Some envMessage =>
      let sess := st_sess st in
      let h := st_heap st in
      let h' := heap_set h (env sess)
                  (<[Name envMessage := Value envMessage]> (h (env sess))) in
      (with_heap h' st, if WantReply request then Reply request true else [])
  end.

Definition handleSignalRequest (request : Request) (st : state)
    : state * list effect :=
  match Unmarshal.signal (Payload request) with
  | None => (st, if WantReply request then Reply request false else [])
  | Some signalMessage =>
      let e1 :=
        match command (st_sess st) with
        | Some cmd => [ESignal cmd (Signals.SyscallSignals (Signal signalMessage))]
        | None => []
        end in
      (st, e1 ++ if WantReply request then Reply request true else [])
  end.

Definition handlePtyRequest (request : Request) (st : state)
    : state * list effect :=
  match Unmarshal.ptyRequest (Payload request) with
  | None => (st, if WantReply request then Reply request false else [])
  | Some ptyRequestMessage =>
      let sess := set_pty true ptyRequestMessage (st_sess st) in
      let h := st_heap st in
      let h' := heap_set h (env sess)
                  (<["TERM" := Term ptyRequestMessage]> (h (env sess))) in
      (with_heap h' (with_sess sess st),
       if WantReply request then Reply request true else [])
  end.

Definition handleWindowChangeRequest (request : Request) (st : state)
    : state * list effect :=
  match Unmarshal.windowChange (Payload request) with
  | None => (st, if WantReply request then Reply request false else [])
  | Some windowChangeMessage =>
      let sess := st_sess st in
      let sess1 :=
        if allocPty sess then
          set_pty (allocPty sess)
            (set_size (wc_Columns windowChangeMessage)
                      (wc_Rows windowChangeMessage) (ptyRequest sess)) sess
        else sess in
      let e1 :=
        match ptyMaster sess1 with
        | Some f => setWindowSize f (Columns (ptyRequest sess1)) (Rows (ptyRequest sess1))
        | None => []
        end in
      (with_sess sess1 st, e1 ++ if WantReply request then Reply request true else [])
  end.

Definition handleExecRequest (o : outcome) (request : Request) (st : state)
    : state * list effect :=
  match Unmarshal.exec (Payload request) with
  | None => (st, if WantReply request then Reply request false else [])
  | Some execMessage =>
      if scpRegex_MatchString (Command execMessage) then
        executeSCP o (Command execMessage) request st
      else
        executeShell o request ["-c"; Command execMessage] st
  end.

Definition handleShellRequest (o : outcome) (request : Request) (st : state)
    : state * list effect :=
  executeShell o request [] st.

End Session.

(** ** The request loop and the waiting goroutine *)

Section Dispatch.

Variable order : map_order.
Variable getenv : string -> string.

(** Modelled from the spec: [serviceRequests] is defined in a file that is
    not part of src.  Requests are consumed one at a time in arrival order
    and routed by their type; a subsystem request is rejected, and an
    unknown type receives a negative reply when the peer asked for one. *)
Definition serviceRequest (o : outcome) (request : Request) (st : state)
    : state * list effect :=
  if String.eqb (Type_ request) "env" then
    handleEnvironmentRequest request st
  else if String.eqb (Type_ request) "signal" then
    handleSignalRequest request st
  else if String.eqb (Type_ request) "pty-req" then
    handlePtyRequest request st
  else if String.eqb (Type_ request) "window-change" then
    handleWindowChangeRequest request st
  else if String.eqb (Type_ request) "exec" then
    handleExecRequest order getenv o request st
  else if String.eqb (Type_ request) "shell" then
    handleShellRequest order getenv o request st
  else
    (st, if WantReply request then Reply request false else []).

(** The goroutine started by [executeShell] after a successful launch:
    [sess.wait] returns, the exit message is sent, the session is torn
    down. *)
Definition waiterReturns (err : option error) (st : state)
    : state * list effect :=
  match st_waiter st with
  | None => (st, [])
  | Some _ =>
      let e1 := sendExitMessage (st_sess st) err in
      let '(sess', e2) := destroy (st_sess st) in
      (with_waiter None (with_sess sess' st), e1 ++ e2)
  end.

(** What happens to a session: a request arrives (with the answers the
    outside world gives while it is handled), or the launched child is
    reaped.  Each is taken as one step. *)
Inductive event : Type :=
| Incoming (request : Request) (o : outcome)
| ChildReaped (err : option error).

Definition step (st : state) (ev : event) : state * list effect :=
  match ev with
  | Incoming request o => serviceRequest o request st
  | ChildReaped err => waiterReturns err st
  end.

Fixpoint run_events (st : state) (evs : list event) : state * list effect :=
  match evs with
  | [] => (st, [])
  | ev :: evs' =>
      let '(st1, e1) := step st ev in
      let '(st2, e2) := run_events st1 evs' in
      (st2, e1 ++ e2)
  end.

(** A session as [HandleNewChannel] starts it. *)
Definition initial (h : heap) (handler : SessionChannelHandler)
    (ch : Channel) : state :=
  {| st_heap := h;
     st_sess := newSession handler ch (keepalive handler);
     st_waiter := None |}.

End Dispatch.

(** ** Requests as a peer builds them *)

Definition envRequest (want : bool) (name value : string) : Request :=
  {| Type_ := "env"; WantReply := want;
     Payload := marshalString name +:+ marshalString value |}.

Definition execRequest (want : bool) (cmd : string) : Request :=
  {| Type_ := "exec"; WantReply := want; Payload := marshalString cmd |}.

Definition shellRequest (want : bool) : Request :=
  {| Type_ := "shell"; WantReply := want; Payload := "" |}.

Definition signalRequest (want : bool) (name : string) : Request :=
  {| Type_ := "signal"; WantReply := want; Payload := marshalString name |}.

Definition ptyRequestOf (want : bool) (term : string) (cols rows : Z)
    : Request :=
  {| Type_ := "pty-req"; WantReply := want;
     Payload := marshalString term +:+ marshalUint32 cols
                +:+ marshalUint32 rows +:+ marshalUint32 0
                +:+ marshalUint32 0 +:+ marshalString "" |}.

(** Every external call succeeds. *)
Definition all_ok : outcome :=
  {| stdin_pipe_fails := false; start_fails := false; pty_open := Some 7%nat;
     scp_new_fails := false; scp_copy_fails := false |}.

Definition start_failing : outcome :=
  {| stdin_pipe_fails := false; start_fails := true; pty_open := Some 7%nat;
     scp_new_fails := false; scp_copy_fails := false |}.


Definition empty_heap : heap := fun _ => ∅.

Definition daemon_env (name : string) : string :=
  if String.eqb name "HOME" then "/home/vcap"
  else if String.eqb name "USER" then "vcap"
  else "".

Definition a_handler : SessionChannelHandler :=
  {| shellLocator_ShellPath := "/bin/sh"; defaultEnv := 0%nat; keepalive := 30 |}.

(** ** Sessions to run *)

(** A fresh session of [a_handler] on channel 1, run with the canonical
    map order and [daemon_env] as the daemon's environment. *)
Definition fresh : state := initial empty_heap a_handler 1%nat.

Definition run_fresh (evs : list event) : state * list effect :=
  run_events canonical_order daemon_env fresh evs.

Definition env_then_exec : list event :=
  [Incoming (envRequest true "HOME" "/tmp/evil") all_ok;
   Incoming (envRequest true "EDITOR" "vi") all_ok;
   Incoming (execRequest true "/usr/bin/env") all_ok].

Definition env_cmd : Cmd :=
  {| Path := "/bin/sh";
     Args := ["/bin/sh"; "-c"; "/usr/bin/env"];
     Env := ["PATH=/bin:/usr/bin"; "LANG=en_US.UTF8"; "EDITOR=vi";
             "HOME=/home/vcap"; "USER=vcap"] |}.

Definition shell_then_reaped : list event :=
  [Incoming (shellRequest true) all_ok; ChildReaped None].

Definition path_then_shell : list event :=
  [Incoming (envRequest true "PATH" "/evil") all_ok;
   Incoming (shellRequest true) all_ok].

Definition path_cmd : Cmd :=
  {| Path := "/bin/sh";
     Args := ["/bin/sh"];
     Env := ["PATH=/bin:/usr/bin"; "LANG=en_US.UTF8"; "PATH=/evil";
             "HOME=/home/vcap"; "USER=vcap"] |}.

Definition truncated_env : Request :=
  {| Type_ := "env"; WantReply := true; Payload := "xx" |}.

(** * The vocabulary of the properties *)

(** An exit-status or exit-signal request sent on the channel. *)
Definition is_exit_notification (e : effect) : bool :=
  match e with
  | ESendRequest _ name _ _ =>
      (String.eqb name "exit-status" || String.eqb name "exit-signal")%bool
  | _ => false
  end.

Definition is_channel_close (ch : Channel) (e : effect) : bool :=
  match e with
  | EChannelClose c => Nat.eqb c ch
  | _ => false
  end.

Definition is_file_close (e : effect) : bool :=
  match e with
  | EFileClose _ => true
  | _ => false
  end.

(** The start of a child process. *)
Definition is_child_start (e : effect) : bool :=
  match e with
  | EStart _ _ => true
  | _ => false
  end.

(** A step that reaches for a child process: the stdin pipe, the
    pseudoterminal, the start. *)
Definition is_launch_step (e : effect) : bool :=
  match e with
  | EStart _ _ | EStdinPipe _ | EOpenPty => true
  | _ => false
  end.

(** A call to the copier. *)
Definition is_scp_step (e : effect) : bool :=
  match e with
  | ESCPNewFromCommand _ | ESCPCopy _ => true
  | _ => false
  end.

(** How often a trace does something. *)
Definition count (p : effect -> bool) (tr : list effect) : nat :=
  length (List.filter p tr).

Fixpoint all_space (s : string) : bool :=
  match s with
  | EmptyString => true
  | String c s' => (is_space c && all_space s')%bool
  end.

(** [destroy] invoked [n] times in a row. *)
Fixpoint destroy_n (n : nat) (sess : session) : session * list effect :=
  match n with
  | O => (sess, [])
  | S n' =>
      let '(sess1, e1) := destroy sess in
      let '(sess2, e2) := destroy_n n' sess1 in
      (sess2, e1 ++ e2)
  end.

(** The two launch paths of [executeShell], taken together. *)
Definition launch (o : outcome) (sess : session) (cmd : Cmd)
    : session * list effect * option error :=
  if allocPty sess then runWithPty o sess cmd
  else let '(e, err) := run o sess cmd in (sess, e, err).

(** The launch of [executeShell] returns an error: the pseudoterminal
    cannot be allocated, the stdin pipe cannot be created, or the child
    cannot be started. *)
Definition launch_fails (o : outcome) (sess : session) : bool :=
  if allocPty sess then
    match pty_open o with
    | None => true
    | Some _ => start_fails o
    end
  else (stdin_pipe_fails o || start_fails o)%bool.

(** The command [createCommand] builds. *)
Definition new_command (order : map_order) (getenv : string -> string)
    (h : heap) (sess : session) (args : list string) : Cmd :=
  {| Path := shellPath sess; Args := shellPath sess :: args;
     Env := environment order getenv h sess |}.

(** The decoding each handler performs on the payload of its request:
    env, signal, pty-req, window-change and exec unmarshal one message
    struct; no other request type is decoded ([handleShellRequest] never
    looks at the payload). *)
Definition decode_fails (request : Request) : bool :=
  if String.eqb (Type_ request) "env" then
    match Unmarshal.env (Payload request) with Some _ => false | None => true end
  else if String.eqb (Type_ request) "signal" then
    match Unmarshal.signal (Payload request) with Some _ => false | None => true end
  else if String.eqb (Type_ request) "pty-req" then
    match Unmarshal.ptyRequest (Payload request) with Some _ => false | None => true end
  else if String.eqb (Type_ request) "window-change" then
    match Unmarshal.windowChange (Payload request) with Some _ => false | None => true end
  else if String.eqb (Type_ request) "exec" then
    match Unmarshal.exec (Payload request) with Some _ => false | None => true end
  else false.

(** A request that asks for a launch: a shell request, or an exec request
    whose payload decodes. *)
Definition is_launch_request (ev : event) : bool :=
  match ev with
  | Incoming r _ =>
      if String.eqb (Type_ r) "shell" then true
      else if String.eqb (Type_ r) "exec" then
        match Unmarshal.exec (Payload r) with Some _ => true | None => false end
      else false
  | ChildReaped _ => false
  end.

(** An exec request whose command goes to the copier. *)
Definition is_scp_request (ev : event) : bool :=
  match ev with
  | Incoming r _ =>
      if String.eqb (Type_ r) "exec" then
        match Unmarshal.exec (Payload r) with
        | Some m => scpRegex_MatchString (Command m)
        | None => false
        end
      else false
  | ChildReaped _ => false
  end.

(** Effects that neither launch nor report anything. *)
Definition quiet (e : list effect) : Prop :=
  count is_exit_notification e = 0%nat /\ count is_child_start e = 0%nat /\
  count is_launch_step e = 0%nat /\ count is_scp_step e = 0%nat.

(** The five kinds of step: nothing that matters to the life cycle
    happens; a command is created and its child started; a command is
    created and its launch fails; a command is handed to the copier; the
    waiting goroutine reports the exit of the child. *)
Inductive step_kind (order : map_order) (getenv : string -> string)
    (st : state) (ev : event) (st' : state) (e : list effect)
    : Prop :=
| StepQuiet :
    command (st_sess st') = command (st_sess st) ->
    st_waiter st' = st_waiter st ->
    complete (st_sess st') = complete (st_sess st) ->
    quiet e ->
    (is_launch_request ev = true -> command (st_sess st) <> None) ->
    is_scp_request ev = false ->
    step_kind order getenv st ev st' e
| StepLaunched (args : list string) :
    let cmd := new_command order getenv (st_heap st) (st_sess st) args in
    is_launch_request ev = true -> is_scp_request ev = false ->
    command (st_sess st) = None ->
    command (st_sess st') = Some cmd ->
    st_waiter st' = Some cmd ->
    complete (st_sess st') = complete (st_sess st) ->
    st_heap st' = st_heap st ->
    count is_exit_notification e = 0%nat ->
    (count is_child_start e <= 1)%nat ->
    (1 <= count is_launch_step e)%nat ->
    (forall x, In x e -> is_child_start x = true -> exists pty, x = EStart cmd pty) ->
    step_kind order getenv st ev st' e
| StepLaunchFailed (args : list string) :
    let cmd := new_command order getenv (st_heap st) (st_sess st) args in
    is_launch_request ev = true -> is_scp_request ev = false ->
    command (st_sess st) = None ->
    command (st_sess st') = Some cmd ->
    st_waiter st' = st_waiter st ->
    complete (st_sess st') = true ->
    st_heap st' = st_heap st ->
    count is_exit_notification e = 1%nat ->
    (count is_child_start e <= 1)%nat ->
    (1 <= count is_launch_step e)%nat ->
    (forall x, In x e -> is_child_start x = true -> exists pty, x = EStart cmd pty) ->
    step_kind order getenv st ev st' e
| StepCopied :
    is_launch_request ev = true -> is_scp_request ev = true ->
    command (st_sess st') = command (st_sess st) ->
    st_waiter st' = st_waiter st ->
    complete (st_sess st') = true ->
    st_heap st' = st_heap st ->
    count is_exit_notification e = 1%nat ->
    count is_child_start e = 0%nat ->
    count is_launch_step e = 0%nat ->
    step_kind order getenv st ev st' e
| StepReaped (c : Cmd) :
    is_launch_request ev = false -> is_scp_request ev = false ->
    st_waiter st = Some c ->
    st_waiter st' = None ->
    command (st_sess st') = command (st_sess st) ->
    complete (st_sess st') = true ->
    st_heap st' = st_heap st ->
    count is_exit_notification e = 1%nat ->
    count is_child_start e = 0%nat ->
    count is_launch_step e = 0%nat ->
    step_kind order getenv st ev st' e.

Definition launch_requests (evs : list event) : nat :=
  length (List.filter is_launch_request evs).

Definition scp_requests (evs : list event) : nat :=
  length (List.filter is_scp_request evs).

(** The life cycle of a session that the copier has not touched: no
    command yet; a command whose child is awaited; a command whose exit
    has been reported. *)
Definition regular (st : state) : bool :=
  match command (st_sess st), st_waiter st, complete (st_sess st) with
  | None, None, false => true
  | Some _, Some _, false => true
  | Some _, None, true => true
  | _, _, _ => false
  end.

(** The same, or torn down by the copier before any command. *)
Definition settled (st : state) : bool :=
  (regular st ||
   match command (st_sess st), st_waiter st, complete (st_sess st) with
   | None, None, true => true
   | _, _, _ => false
   end)%bool.

(** The number of exit notifications a session in this state has sent. *)
Definition sent (st : state) : nat :=
  if complete (st_sess st) then 1%nat else 0%nat.

(** The value of [name] a reader of the vector gets when later entries
    take precedence, as they do for the shell that is launched. *)
Fixpoint last_value (name : string) (vec : list string) : option string :=
  match vec with
  | [] => None
  | e :: vec' =>
      match last_value name vec' with
      | Some v => Some v
      | None =>
          if String.prefix (name +:+ "=") e
          then Some (String.substring (S (String.length name))
                       (String.length e - S (String.length name)) e)
          else None
      end
  end.

(** * More of the handler *)

(** ** The shell locator *)

Definition shell_candidates : list string :=
  ["/bin/bash"; "/usr/local/bin/bash"; "/bin/sh"; "bash"; "sh"].

(** The loop of [ShellPath]: the first candidate [exec.LookPath] finds. *)
Fixpoint first_shell (lookPath : string -> option string)
    (candidates : list string) : option string :=
  match candidates with
  | [] => None
  | shell :: rest =>
      match lookPath shell with
      | Some path => Some path
      | None => first_shell lookPath rest
      end
  end.

(** [shellLocator.ShellPath], with [exec.LookPath] as a parameter. *)
Definition ShellPath (lookPath : string -> option string) : string :=
  match first_shell lookPath shell_candidates with
  | Some path => path
  | None => "/bin/sh"
  end.

(** ** Terminal modes *)

(** The calls [setTerminalAttributes] makes on the pseudoterminal: it
    reads the attributes, then asks the setter registered for the opcode
    to set the value. *)
Inductive term_call : Type :=
| TcGetAttr
| TermAttrSet (opcode : Z) (value : Z).

(** [setTerminalAttributes]: the mode list is read record by record, one
    byte of opcode and a big-endian 32-bit value.  The loop ends when no
    opcode is left, at an opcode of 0 or of 160 and more, and when the
    value is cut short.  [tcget_ok] tells, record after record, whether
    reading the attributes succeeds; when it fails the record is skipped.
    A failing setter is only logged. *)
Fixpoint setTerminalAttributes (tcget_ok : list bool) (modelist : string)
    : list term_call :=
  match modelist with
  | EmptyString => []
  | String op rest =>
      let opcode := byte_val op in
      if (Z.eqb opcode 0 || Z.leb 160 opcode)%bool then []
      else
        match rest with
        | String a (String b (String c (String d rest'))) =>
            let value :=
              Z.lor (Z.shiftl (byte_val a) 24)
                (Z.lor (Z.shiftl (byte_val b) 16)
                  (Z.lor (Z.shiftl (byte_val c) 8) (byte_val d))) in
            (match tcget_ok with
             | false :: _ => [TcGetAttr]
             | _ => [TcGetAttr; TermAttrSet opcode value]
             end)
            ++ setTerminalAttributes (List.tl tcget_ok) rest'
        | _ => []
        end
  end.

(** A mode list as a peer writes it. *)
Definition modelist_record (r : Z * Z) : string :=
  String (byte_of (fst r)) (marshalUint32 (snd r)).

Fixpoint encode_modelist (records : list (Z * Z)) : string :=
  match records with
  | [] => EmptyString
  | r :: rest => modelist_record r +:+ encode_modelist rest
  end.

Definition valid_record (r : Z * Z) : Prop :=
  1 <= fst r <= 159 /\ 0 <= snd r < 2 ^ 32.

Definition is_tcgetattr (c : term_call) : bool :=
  match c with
  | TcGetAttr => true
  | TermAttrSet _ _ => false
  end.

(** ** The keepalive loop *)

(** What the [select] of [keepalive] receives: a tick of the ticker,
    with the fate of the keepalive request sent on it, or the stop
    signal. *)
Inductive keepalive_event : Type :=
| Tick (send_fails : bool)
| Stop.

(** [keepalive]: an error of [runner.Signal] is only logged. *)
Fixpoint keepalive_loop (sess : session) (command : Cmd)
    (evs : list keepalive_event) : list effect :=
  match evs with
  | [] => []
  | Tick send_fails :: evs' =>
      ESendRequest (channel sess) "keepalive@cloudfoundry.org" true ""
      :: (if send_fails then [ESignal command Signals.SIGHUP]
          else keepalive_loop sess command evs')
  | Stop :: _ => []
  end.

Definition is_keepalive (e : effect) : bool :=
  match e with
  | ESendRequest _ name _ _ => String.eqb name "keepalive@cloudfoundry.org"
  | _ => false
  end.

Definition is_signal (e : effect) : bool :=
  match e with
  | ESignal _ _ => true
  | _ => false
  end.

Definition is_stop_close (e : effect) : bool :=
  match e with
  | ECloseStopCh _ => true
  | _ => false
  end.

Definition is_any_channel_close (e : effect) : bool :=
  match e with
  | EChannelClose _ => true
  | _ => false
  end.

Definition tick_failed (ev : keepalive_event) : bool :=
  match ev with
  | Tick true => true
  | _ => false
  end.

Definition is_stop (ev : keepalive_event) : bool :=
  match ev with
  | Stop => true
  | _ => false
  end.

(** ** Frames *)

(** What a step leaves alone: the session's map reference, channel and
    shell path; a pseudoterminal request and a teardown are never taken
    back; only the session's own map is written, and no key of it is
    removed; the channel is closed exactly when the session becomes
    complete; a signal goes to the session's command. *)
Definition step_frame (st st' : state) (e : list effect) : Prop :=
  env (st_sess st') = env (st_sess st) /\
  channel (st_sess st') = channel (st_sess st) /\
  shellPath (st_sess st') = shellPath (st_sess st) /\
  (allocPty (st_sess st) = true -> allocPty (st_sess st') = true) /\
  (forall l, l <> env (st_sess st) -> st_heap st' l = st_heap st l) /\
  (forall k, is_Some (st_heap st (env (st_sess st)) !! k) ->
             is_Some (st_heap st' (env (st_sess st)) !! k)) /\
  (count is_any_channel_close e + sent st = sent st')%nat /\
  (forall x, In x e -> is_signal x = true ->
     exists c sig, x = ESignal c sig /\ command (st_sess st) = Some c).

Definition windowChangeRequest (want : bool) (cols rows : Z) : Request :=
  {| Type_ := "window-change"; WantReply := want;
     Payload := marshalUint32 cols +:+ marshalUint32 rows
                +:+ marshalUint32 0 +:+ marshalUint32 0 |}.

(** * Properties *)

Example parseUint32_80 :
  parseUint32 (String "000" (String "000" (String "000" (String "080" "x"))))
  = Some (80, "x").
Proof. reflexivity. Qed.

Example parseString_abc :
  parseString (marshalString "abc" +:+ "rest") = Some ("abc", "rest").
Proof. reflexivity. Qed.

Example scp_match_1 : scpRegex_MatchString "scp -t /tmp/dest" = true.
Proof. reflexivity. Qed.
Example scp_match_2 : scpRegex_MatchString "   scp" = true.
Proof. reflexivity. Qed.
Example scp_match_3 : scpRegex_MatchString "scpx -t" = false.
Proof. reflexivity. Qed.
Example scp_match_4 : scpRegex_MatchString "/usr/bin/scp -t" = false.
Proof. reflexivity. Qed.

(** ** Counting what reaches the channel *)

Lemma count_app p (a b : list effect) :
  count p (a ++ b) = (count p a + count p b)%nat.
Proof. unfold count. rewrite List.filter_app, length_app. reflexivity. Qed.

Lemma count_cons p (a : effect) (tr : list effect) :
  count p (a :: tr) = ((if p a then 1 else 0) + count p tr)%nat.
Proof. unfold count. simpl. destruct (p a); reflexivity. Qed.

Lemma count_none p (tr : list effect) :
  (forall e, In e tr -> p e = false) -> count p tr = 0%nat.
Proof.
  unfold count. induction tr as [|a tr IH]; simpl; intros H; [reflexivity|].
  rewrite (H a (or_introl eq_refl)). apply IH. intros e He. apply H. right. exact He.
Qed.

Lemma count_zero_none p (tr : list effect) :
  count p tr = 0%nat -> forall e, In e tr -> p e = false.
Proof.
  unfold count. induction tr as [|a tr IH]; simpl; intros H e He; [tauto|].
  destruct (p a) eqn:Ha; [discriminate|].
  destruct He as [<-|He]; [exact Ha | apply IH; assumption].
Qed.

(** ** The scp pattern, spelled out *)

Lemma append_String (c : ascii) (a b : string) :
  String c a +:+ b = String c (a +:+ b).
Proof. reflexivity. Qed.

Lemma skip_space_split (s : string) :
  exists w, all_space w = true /\ s = w +:+ skip_space s.
Proof.
  induction s as [|c s IH]; simpl.
  - exists EmptyString. split; reflexivity.
  - destruct (is_space c) eqn:Hc.
    + destruct IH as (w & Hw & Hs). exists (String c w). simpl.
      rewrite Hc, Hw. split; [reflexivity |].
      rewrite append_String. f_equal. exact Hs.
    + exists EmptyString. split; reflexivity.
Qed.

Lemma skip_space_prefix (w rest : string) :
  all_space w = true ->
  skip_space (w +:+ "scp" +:+ rest) = "scp" +:+ rest.
Proof.
  induction w as [|c w IH]; simpl; intros H.
  - reflexivity.
  - apply andb_prop in H as [Hc Hw]. rewrite Hc. auto.
Qed.

(** X16.  The strings the scp pattern accepts are exactly those made of
    white space (possibly none), then the word scp, then either nothing
    or a rest that starts with a white-space character: a longer word
    such as scpx, or a path such as /usr/bin/scp, is not taken for the
    copier. *)
Lemma scpRegex_MatchString_spec (s : string) :
  scpRegex_MatchString s = true <->
  exists w rest,
    s = w +:+ "scp" +:+ rest /\ all_space w = true /\
    (rest = "" \/ exists c r, rest = String c r /\ is_space c = true).
Proof.
  unfold scpRegex_MatchString. split.
  - intros H. destruct (skip_space_split s) as (w & Hw & Hs).
    destruct (skip_space s) as [|a s1] eqn:E; [discriminate|].
    destruct a as [[] [] [] [] [] [] [] []]; try discriminate H.
    destruct s1 as [|b s2]; [discriminate|].
    destruct b as [[] [] [] [] [] [] [] []]; try discriminate H.
    destruct s2 as [|c rest]; [discriminate|].
    destruct c as [[] [] [] [] [] [] [] []]; try discriminate H.
    exists w, rest. split; [exact Hs|]. split; [exact Hw|].
    destruct rest as [|d r]; [left; reflexivity|right; eauto].
  - intros (w & rest & -> & Hw & Hrest).
    rewrite skip_space_prefix by assumption. simpl.
    destruct Hrest as [-> | (c & r & -> & Hc)]; [reflexivity | exact Hc].
Qed.

(** ** Exit reporting *)

Lemma ExitStatus_range (w : Z) :
  WaitStatus.Exited w = true -> 0 <= WaitStatus.ExitStatus w < 256.
Proof.
  intros H. unfold WaitStatus.ExitStatus. rewrite H.
  change 255 with (Z.ones 8). rewrite Z.land_ones by lia.
  apply Z.mod_pos_bound. reflexivity.
Qed.

Lemma Exited_not_Signaled (w : Z) :
  WaitStatus.Exited w = true -> WaitStatus.Signaled w = false.
Proof.
  unfold WaitStatus.Exited, WaitStatus.Signaled. intros ->.
  apply andb_false_r.
Qed.

Lemma launch_errors_are_plain (o : outcome) (sess : session) (cmd : Cmd) :
  (forall e err, run o sess cmd = (e, Some err) -> err = OtherError) /\
  (forall s e err, runWithPty o sess cmd = (s, e, Some err) -> err = OtherError).
Proof.
  unfold run, runWithPty. split.
  - intros e err. destruct (stdin_pipe_fails o), (start_fails o); congruence.
  - intros s e err. destruct (pty_open o), (start_fails o); congruence.
Qed.

(** ** Teardown *)

Lemma destroy_complete (sess : session) :
  complete (fst (destroy sess)) = true /\ 
  (complete sess = false -> ptyMaster (fst (destroy sess)) = None).
Proof.
  unfold destroy. destruct (complete sess) eqn:Hc; simpl.
  - split; [exact Hc | discriminate].
  - destruct (ptyMaster sess) eqn:Hp; simpl; split; try reflexivity;
      intros _; try reflexivity; exact Hp.
Qed.

Lemma destroy_when_complete (sess : session) :
  complete sess = true -> destroy sess = (sess, []).
Proof. unfold destroy. intros ->. reflexivity. Qed.

Lemma destroy_n_when_complete (n : nat) (sess : session) :
  complete sess = true -> destroy_n n sess = (sess, []).
Proof.
  induction n as [|n IH]; simpl; intros H; [reflexivity|].
  rewrite (destroy_when_complete sess H), (IH H). reflexivity.
Qed.

Lemma destroy_n_first (n : nat) (sess : session) :
  destroy_n (S n) sess = destroy sess.
Proof.
  simpl. destruct (destroy sess) as [sess1 e1] eqn:E.
  assert (H1 : complete sess1 = true).
  { pose proof (proj1 (destroy_complete sess)) as H. rewrite E in H. exact H. }
  rewrite (destroy_n_when_complete n sess1 H1), app_nil_r. reflexivity.
Qed.

(** C6.  Teardown is idempotent: on a session that is not yet complete,
    [destroy] invoked [n >= 1] times closes the channel exactly once and
    closes the PTY master exactly once when one is held (never otherwise);
    after the first invocation the complete flag is set and the PTY master
    reference is cleared, and every later invocation changes nothing and
    does nothing. *)
Theorem C6_destroy_idempotent (sess : session) (n : nat) :
  complete sess = false -> (1 <= n)%nat ->
  let sess1 := fst (destroy sess) in
  count (is_channel_close (channel sess)) (snd (destroy_n n sess)) = 1%nat /\
  count is_file_close (snd (destroy_n n sess))
    = match ptyMaster sess with Some _ => 1%nat | None => 0%nat end /\
  (forall f, ptyMaster sess = Some f -> In (EFileClose f) (snd (destroy_n n sess))) /\
  complete sess1 = true /\
  ptyMaster sess1 = None /\
  destroy sess1 = (sess1, []) /\
  destroy_n n sess = destroy sess /\
  (forall k, destroy_n k sess1 = (sess1, [])).
Proof.
  intros Hc Hn sess1. destruct n as [|n]; [lia|].
  rewrite destroy_n_first.
  pose proof (destroy_complete sess) as [H1 H2]. specialize (H2 Hc).
  fold sess1 in H1, H2.
  assert (Hshape : snd (destroy sess)
            = [EChannelClose (channel sess)]
              ++ match ptyMaster sess with Some f => [EFileClose f] | None => [] end
              ++ match keepaliveStopCh sess with Some c => [ECloseStopCh c] | None => [] end).
  { unfold destroy. rewrite Hc. simpl. destruct (ptyMaster sess); reflexivity. }
  rewrite Hshape.
  repeat split.
  - rewrite !count_app. unfold count. simpl. rewrite Nat.eqb_refl.
    destruct (ptyMaster sess), (keepaliveStopCh sess); reflexivity.
  - rewrite !count_app. unfold count. simpl.
    destruct (ptyMaster sess), (keepaliveStopCh sess); reflexivity.
  - intros f ->. simpl. right. left. reflexivity.
  - exact H1.
  - exact H2.
  - apply destroy_when_complete. exact H1.
  - intros k. apply destroy_n_when_complete. exact H1.
Qed.

Lemma C6_destroy_idempotent_witness :
  let sess := set_ptyMaster (Some 7%nat)
                (newSession {| shellLocator_ShellPath := "/bin/sh";
                               defaultEnv := 0%nat; keepalive := 30 |} 1%nat 30) in
  complete sess = false /\ (1 <= 3)%nat /\
  count (is_channel_close 1%nat) (snd (destroy_n 3 sess)) = 1%nat /\
  count is_file_close (snd (destroy_n 3 sess)) = 1%nat /\
  complete (fst (destroy sess)) = true /\
  ptyMaster (fst (destroy sess)) = None /\
  destroy_n 3 sess = destroy sess.
Proof.
  intros sess.
  assert (Hn : (1 <= 3)%nat) by lia.
  destruct (C6_destroy_idempotent sess 3 eq_refl Hn)
    as (H1 & H2 & _ & H4 & H5 & _ & H7 & _).
  split; [reflexivity|]. split; [exact Hn|].
  split; [exact H1|]. split; [exact H2|]. split; [exact H4|].
  split; [exact H5 | exact H7].
Defined.

(** ** Requests, one at a time *)

Section Properties.

Variable order : map_order.
Variable getenv : string -> string.

Lemma run_events_cons (st : state) (ev : event) (evs : list event) :
  run_events order getenv st (ev :: evs)
  = (fst (run_events order getenv (fst (step order getenv st ev)) evs),
     snd (step order getenv st ev)
     ++ snd (run_events order getenv (fst (step order getenv st ev)) evs)).
Proof.
  simpl. destruct (step order getenv st ev) as [st1 e1]. simpl.
  destruct (run_events order getenv st1 evs) as [st2 e2]. reflexivity.
Qed.

Lemma run_events_app (st : state) (evs1 evs2 : list event) :
  run_events order getenv st (evs1 ++ evs2)
  = (fst (run_events order getenv (fst (run_events order getenv st evs1)) evs2),
     snd (run_events order getenv st evs1)
     ++ snd (run_events order getenv
               (fst (run_events order getenv st evs1)) evs2)).
Proof.
  revert st. induction evs1 as [|ev evs1 IH]; intros st.
  - simpl. destruct (run_events order getenv st evs2). reflexivity.
  - rewrite <- app_comm_cons, !run_events_cons, IH. simpl.
    rewrite app_assoc. reflexivity.
Qed.

Lemma serviceRequest_shell (o : outcome) (request : Request) (st : state) :
  Type_ request = "shell" ->
  serviceRequest order getenv o request st = executeShell order getenv o request [] st.
Proof. unfold serviceRequest. intros ->. reflexivity. Qed.

Lemma serviceRequest_exec (o : outcome) (request : Request) (st : state) :
  Type_ request = "exec" ->
  serviceRequest order getenv o request st = handleExecRequest order getenv o request st.
Proof. unfold serviceRequest. intros ->. reflexivity. Qed.

(** The effects of [executeShell] once the command has been created. *)
Lemma executeShell_created (o : outcome) (request : Request)
    (args : list string) (st : state) :
  command (st_sess st) = None ->
  exists rest,
    snd (executeShell order getenv o request args st)
    = (if WantReply request then [EReply true] else []) ++ rest.
Proof.
  intros Hc. unfold executeShell, createCommand, Reply.
  rewrite Hc. simpl.
  destruct (allocPty (st_sess st)).
  - destruct (runWithPty o _ _) as [[s2 e2] [err|]].
    + destruct (destroy s2) as [s3 e4]. simpl.
      destruct (WantReply request); eauto.
    + simpl. destruct (WantReply request); eauto.
  - destruct (run o _ _) as [e2 [err|]].
    + destruct (destroy _) as [s3 e4]. simpl.
      destruct (WantReply request); eauto.
    + simpl. destruct (WantReply request); eauto.
Qed.

Lemma executeSCP_effects (o : outcome) (cmd : string) (request : Request)
    (st : state) :
  executeSCP o cmd request st
  = (with_sess (fst (destroy (st_sess st))) st,
     (if WantReply request then [EReply true] else [])
     ++ (if scp_new_fails o then [ESCPNewFromCommand cmd]
         else [ESCPNewFromCommand cmd; ESCPCopy cmd])
     ++ [ESendRequest (channel (st_sess st)) "exit-status" false
           (marshalUint32
              (if (scp_new_fails o || scp_copy_fails o)%bool then 1 else 0))]
     ++ snd (destroy (st_sess st))).
Proof.
  unfold executeSCP, sendSCPExitMessage, exitStatusMsg, Reply.
  destruct (destroy (st_sess st)) as [s' e4].
  destruct (scp_new_fails o), (scp_copy_fails o), (WantReply request);
    reflexivity.
Qed.

(** C7.  On every successful commit of an exec or shell request with
    want_reply set (the command is created, or the command is handed to
    the copier), the positive reply is the first thing the session does:
    it precedes the start of the child, and so every exit-status or
    exit-signal request of the rest of the run. *)
Theorem C7_reply_before_start (o : outcome) (request : Request) (st : state)
    (evs : list event) :
  WantReply request = true ->
  (Type_ request = "shell" /\ command (st_sess st) = None) \/
  (Type_ request = "exec" /\
   exists m, Unmarshal.exec (Payload request) = Some m /\
     (scpRegex_MatchString (Command m) = true \/ command (st_sess st) = None)) ->
  exists rest,
    snd (run_events order getenv st (Incoming request o :: evs)) = EReply true :: rest /\
    forall pre e post,
      snd (run_events order getenv st (Incoming request o :: evs)) = pre ++ e :: post ->
      (is_child_start e || is_exit_notification e)%bool = true ->
      exists pre', pre = EReply true :: pre'.
Proof.
  intros Hw Hcommit.
  assert (Hfirst : exists rest,
            snd (run_events order getenv st (Incoming request o :: evs)) = EReply true :: rest).
  { rewrite run_events_cons. simpl.
    destruct Hcommit as [[Ht Hc] | (Ht & m & Hm & Hcase)].
    - rewrite (serviceRequest_shell _ _ _ Ht).
      destruct (executeShell_created o request [] st Hc) as [rest ->].
      rewrite Hw. simpl. eauto.
    - rewrite (serviceRequest_exec _ _ _ Ht).
      unfold handleExecRequest. rewrite Hm.
      destruct (scpRegex_MatchString (Command m)) eqn:Hscp.
      + rewrite executeSCP_effects. simpl. rewrite Hw. simpl. eauto.
      + destruct Hcase as [|Hc]; [discriminate|].
        destruct (executeShell_created o request ["-c"; Command m] st Hc)
          as [rest ->].
        rewrite Hw. simpl. eauto. }
  destruct Hfirst as [rest Hrest]. exists rest. split; [exact Hrest|].
  intros pre e post Hsplit He. rewrite Hrest in Hsplit.
  destruct pre as [|p pre'].
  - simpl in Hsplit. injection Hsplit as <- _. discriminate He.
  - simpl in Hsplit. injection Hsplit as <- _. eauto.
Qed.

(** ** The launch, step by step *)

Lemma createCommand_spec (h : heap) (sess : session) (args : list string) :
  createCommand order getenv h sess args
  = match command sess with
    | Some _ => (sess, inr "command already started")
    | None => (set_command (Some (new_command order getenv h sess args)) sess,
               inl (new_command order getenv h sess args))
    end.
Proof. reflexivity. Qed.

Lemma executeShell_rejected (o : outcome) (request : Request)
    (args : list string) (st : state) (c : Cmd) :
  command (st_sess st) = Some c ->
  executeShell order getenv o request args st
  = (st, if WantReply request then [EReply false] else []).
Proof.
  intros Hc. unfold executeShell. rewrite createCommand_spec, Hc.
  unfold Reply. destruct (WantReply request); reflexivity.
Qed.

Lemma executeShell_launched (o : outcome) (request : Request)
    (args : list string) (st : state) :
  command (st_sess st) = None ->
  let cmd := new_command order getenv (st_heap st) (st_sess st) args in
  let sess1 := set_command (Some cmd) (st_sess st) in
  let sess2 := fst (fst (launch o sess1 cmd)) in
  let e1 := if WantReply request then [EReply true] else [] in
  let e2 := snd (fst (launch o sess1 cmd)) in
  executeShell order getenv o request args st
  = match snd (launch o sess1 cmd) with
    | Some err =>
        (with_sess (fst (destroy sess2)) st,
         e1 ++ e2 ++ sendExitMessage sess2 (Some err) ++ snd (destroy sess2))
    | None => (with_waiter (Some cmd) (with_sess sess2 st), e1 ++ e2)
    end.
Proof.
  intros Hc. unfold executeShell. rewrite createCommand_spec, Hc.
  unfold launch, Reply. simpl.
  destruct (allocPty (st_sess st)).
  - destruct (runWithPty o _ _) as [[s2 e2] [err|]]; simpl.
    + destruct (destroy s2) as [s3 e4]. destruct (WantReply request); reflexivity.
    + destruct (WantReply request); reflexivity.
  - destruct (run o _ _) as [e2 [err|]]; simpl.
    + destruct (destroy _) as [s3 e4]. destruct (WantReply request); reflexivity.
    + destruct (WantReply request); reflexivity.
Qed.

(** What a launch can do: it leaves the session alone except for the
    PTY master, it reaches for the child (pipe, pseudoterminal or start),
    it sends no exit notification and does not touch the copier, it starts
    at most one child, and its errors are plain errors. *)
Lemma launch_spec (o : outcome) (sess : session) (cmd : Cmd) :
  let r := launch o sess cmd in
  (fst (fst r) = sess \/ exists f, fst (fst r) = set_ptyMaster (Some f) sess) /\
  (1 <= count is_launch_step (snd (fst r)))%nat /\
  count is_exit_notification (snd (fst r)) = 0%nat /\
  count is_scp_step (snd (fst r)) = 0%nat /\
  (count is_child_start (snd (fst r)) <= 1)%nat /\
  (forall e, In e (snd (fst r)) -> is_child_start e = true ->
     exists pty, e = EStart cmd pty) /\
  (snd r = None \/ snd r = Some OtherError).
Proof.
  unfold launch, runWithPty, run, setWindowSize, count.
  destruct (allocPty sess), (pty_open o), (stdin_pipe_fails o), (start_fails o);
    simpl; repeat split; eauto;
    intros e He Hs; repeat (destruct He as [<-|He]; try discriminate Hs; eauto);
    destruct He.
Qed.

Lemma launch_session (o : outcome) (sess : session) (cmd : Cmd) :
  let s := fst (fst (launch o sess cmd)) in
  command s = command sess /\ complete s = complete sess /\
  channel s = channel sess /\ env s = env sess /\
  shellPath s = shellPath sess /\ allocPty s = allocPty sess /\
  keepaliveStopCh s = keepaliveStopCh sess.
Proof.
  destruct (launch_spec o sess cmd) as ([-> | [f ->]] & _); simpl; tauto.
Qed.

(** What teardown can do. *)
Lemma destroy_spec (sess : session) :
  let s := fst (destroy sess) in
  command s = command sess /\ complete s = true /\
  channel s = channel sess /\ env s = env sess /\
  shellPath s = shellPath sess /\ allocPty s = allocPty sess /\
  count is_launch_step (snd (destroy sess)) = 0%nat /\
  count is_exit_notification (snd (destroy sess)) = 0%nat /\
  count is_scp_step (snd (destroy sess)) = 0%nat /\
  count is_child_start (snd (destroy sess)) = 0%nat.
Proof.
  unfold destroy, count. destruct (complete sess) eqn:Hc; simpl; [tauto|].
  destruct (ptyMaster sess); simpl; destruct (keepaliveStopCh sess); simpl; tauto.
Qed.

Lemma sendExitMessage_spec (sess : session) (err : option error) :
  count is_exit_notification (sendExitMessage sess err) = 1%nat /\
  count is_launch_step (sendExitMessage sess err) = 0%nat /\
  count is_scp_step (sendExitMessage sess err) = 0%nat /\
  count is_child_start (sendExitMessage sess err) = 0%nat.
Proof.
  unfold sendExitMessage, count.
  destruct err as [[[w|]|]|]; simpl; try tauto.
  destruct (WaitStatus.Signaled w); simpl; tauto.
Qed.

Lemma reply_spec (b c : bool) (p : effect -> bool) :
  (forall ok, p (EReply ok) = false) ->
  count p (if b then [EReply c] else []) = 0%nat.
Proof. intros H. destruct b; unfold count; simpl; rewrite ?H; reflexivity. Qed.

Lemma launch_fails_spec (o : outcome) (sess : session) (cmd : Cmd) :
  launch_fails o sess = true ->
  snd (launch o sess cmd) = Some OtherError /\
  fst (fst (launch o sess cmd)) = sess.
Proof.
  unfold launch_fails, launch, runWithPty, run.
  destruct (allocPty sess), (pty_open o), (stdin_pipe_fails o), (start_fails o);
    simpl; intros H; try discriminate H; split; reflexivity.
Qed.

(** X20.  What is sent when the exit of a child is reported.  The waiting
    goroutine and the failed launch both report through [sendExitMessage]:
    a child that terminated normally (no error from the wait, or an exit
    error whose wait status says exited) yields one exit-status request
    carrying its exit code as a 32-bit number; a child killed by a signal
    yields one exit-signal request carrying the SSH name of the signal and
    the core-dumped flag; an exit error that carries no wait status, any
    error that is no exit error, and every failed launch yield one
    exit-status request with status 255. *)
Theorem X20_exit_message_cases (sess : session) :
  (forall st c err, st_waiter st = Some c ->
     snd (waiterReturns err st)
       = sendExitMessage (st_sess st) err ++ snd (destroy (st_sess st))) /\
  sendExitMessage sess None
    = [ESendRequest (channel sess) "exit-status" false (marshalUint32 0)] /\
  (forall w, WaitStatus.Exited w = true ->
     sendExitMessage sess (Some (ExitError (Some w)))
       = [ESendRequest (channel sess) "exit-status" false
            (marshalUint32 (WaitStatus.ExitStatus w))] /\
     WaitStatus.ExitStatus w = Z.land (Z.shiftr w 8) 255 /\
     0 <= WaitStatus.ExitStatus w < 2 ^ 32) /\
  (forall w, WaitStatus.Signaled w = true ->
     sendExitMessage sess (Some (ExitError (Some w)))
       = [ESendRequest (channel sess) "exit-signal" false
            (marshalString (Signals.SSHSignals (Z.land w 127))
             +:+ marshalBool (negb (Z.eqb (Z.land w 128) 0))
             +:+ marshalString "" +:+ marshalString "")]) /\
  sendExitMessage sess (Some (ExitError None))
    = [ESendRequest (channel sess) "exit-status" false (marshalUint32 255)] /\
  sendExitMessage sess (Some OtherError)
    = [ESendRequest (channel sess) "exit-status" false (marshalUint32 255)] /\
  (forall o cmd e err, run o sess cmd = (e, Some err) ->
     sendExitMessage sess (Some err)
       = [ESendRequest (channel sess) "exit-status" false (marshalUint32 255)]) /\
  (forall o cmd s e err, runWithPty o sess cmd = (s, e, Some err) ->
     sendExitMessage s (Some err)
       = [ESendRequest (channel s) "exit-status" false (marshalUint32 255)]) /\
  (forall o request args st,
     command (st_sess st) = None -> launch_fails o (st_sess st) = true ->
     In (ESendRequest (channel (st_sess st)) "exit-status" false (marshalUint32 255))
        (snd (executeShell order getenv o request args st)) /\
     count is_exit_notification
       (snd (executeShell order getenv o request args st)) = 1%nat).
Proof.
  split.
  { intros st c err Hw. unfold waiterReturns. rewrite Hw.
    destruct (destroy (st_sess st)). reflexivity. }
  repeat split.
  - simpl. rewrite (Exited_not_Signaled w H). unfold exitStatusMsg, to_uint32.
    rewrite Z.mod_small; [reflexivity|].
    pose proof (ExitStatus_range w H). lia.
  - unfold WaitStatus.ExitStatus. rewrite H. reflexivity.
  - apply (ExitStatus_range w H).
  - pose proof (ExitStatus_range w H). lia.
  - intros w H. simpl. rewrite H. unfold exitSignalMsg.
    unfold WaitStatus.CoreDump, WaitStatus.Signal. rewrite H. reflexivity.
  - intros o cmd e err H.
    destruct (launch_errors_are_plain o sess cmd) as [Hr _].
    rewrite (Hr e err H). reflexivity.
  - intros o cmd s e err H.
    destruct (launch_errors_are_plain o sess cmd) as [_ Hp].
    rewrite (Hp s e err H). reflexivity.
  - rewrite (executeShell_launched o request args st H).
    destruct (launch_fails_spec o (set_command
                (Some (new_command order getenv (st_heap st) (st_sess st) args))
                (st_sess st))
                (new_command order getenv (st_heap st) (st_sess st) args) H0)
      as [-> ->].
    cbn [snd]. apply in_or_app. right. apply in_or_app. right.
    apply in_or_app. left. simpl. left. reflexivity.
  - rewrite (executeShell_launched o request args st H).
    pose proof (launch_spec o (set_command
                (Some (new_command order getenv (st_heap st) (st_sess st) args))
                (st_sess st))
                (new_command order getenv (st_heap st) (st_sess st) args))
      as (_ & _ & Hex & _).
    destruct (launch_fails_spec o (set_command
                (Some (new_command order getenv (st_heap st) (st_sess st) args))
                (st_sess st))
                (new_command order getenv (st_heap st) (st_sess st) args) H0)
      as [Herr Hs].
    cbn zeta in Hex. rewrite Herr. cbn [snd].
    rewrite !count_app, Hex, reply_spec by reflexivity.
    rewrite Hs.
    destruct (destroy_spec (set_command
                (Some (new_command order getenv (st_heap st) (st_sess st) args))
                (st_sess st)))
      as (_ & _ & _ & _ & _ & _ & _ & -> & _).
    reflexivity.
Qed.

(** ** The exec request *)



(** ** Malformed payloads *)

(** C8.  A request whose payload fails to decode gets a negative reply
    when want_reply is set and nothing otherwise, never a positive reply,
    and leaves the whole state (the env map, allocPty, ptyRequest, the
    command and everything else) as it was.  This covers env, signal,
    pty-req, window-change and exec; a shell request has no payload that
    is decoded, so it cannot fail this way. *)
Theorem C8_malformed_payload (o : outcome) (request : Request) (st : state) :
  decode_fails request = true ->
  fst (serviceRequest order getenv o request st) = st /\
  snd (serviceRequest order getenv o request st)
    = (if WantReply request then [EReply false] else []) /\
  (WantReply request = true ->
     In (EReply false) (snd (serviceRequest order getenv o request st))) /\
  ~ In (EReply true) (snd (serviceRequest order getenv o request st)).
Proof.
  intros Hd.
  assert (H : serviceRequest order getenv o request st
              = (st, if WantReply request then [EReply false] else [])).
  { unfold decode_fails in Hd. unfold serviceRequest.
    destruct (String.eqb (Type_ request) "env").
    { unfold handleEnvironmentRequest, Reply.
      destruct (Unmarshal.env (Payload request)); [discriminate|reflexivity]. }
    destruct (String.eqb (Type_ request) "signal").
    { unfold handleSignalRequest, Reply.
      destruct (Unmarshal.signal (Payload request)); [discriminate|].
      destruct (WantReply request); reflexivity. }
    destruct (String.eqb (Type_ request) "pty-req").
    { unfold handlePtyRequest, Reply.
      destruct (Unmarshal.ptyRequest (Payload request)); [discriminate|].
      destruct (WantReply request); reflexivity. }
    destruct (String.eqb (Type_ request) "window-change").
    { unfold handleWindowChangeRequest, Reply.
      destruct (Unmarshal.windowChange (Payload request)); [discriminate|].
      destruct (WantReply request); reflexivity. }
    destruct (String.eqb (Type_ request) "exec"); [|discriminate].
    unfold handleExecRequest, Reply.
    destruct (Unmarshal.exec (Payload request)); [discriminate|].
    destruct (WantReply request); reflexivity. }
  rewrite H. simpl. repeat split.
  - intros ->. left. reflexivity.
  - destruct (WantReply request); simpl; intuition discriminate.
Qed.

(** ** The child's environment *)

Lemma environment_shape (h : heap) (sess : session) :
  environment order getenv h sess
  = "PATH=/bin:/usr/bin" :: "LANG=en_US.UTF8"
    :: List.map (fun kv => entry (fst kv) (snd kv)) (peer_entries order (h (env sess)))
    ++ [entry "HOME" (getenv "HOME"); entry "USER" (getenv "USER")].
Proof.
  unfold environment. simpl. rewrite <- app_assoc. reflexivity.
Qed.

Lemma peer_entries_spec (m : gmap string string) (k v : string) :
  In (k, v) (peer_entries order m)
  <-> m !! k = Some v /\ k <> "HOME" /\ k <> "USER".
Proof.
  unfold peer_entries. rewrite List.filter_In. simpl.
  rewrite andb_true_iff, !negb_true_iff, !String.eqb_neq.
  rewrite <- list_elem_of_In, (range_perm order m), elem_of_map_to_list.
  tauto.
Qed.

Lemma environment_entry (h : heap) (sess : session) (k v : string) :
  h (env sess) !! k = Some v -> k <> "HOME" -> k <> "USER" ->
  In (entry k v) (environment order getenv h sess).
Proof.
  intros Hk H1 H2. rewrite environment_shape.
  right. right. apply in_or_app. left.
  apply (in_map (fun kv => entry (fst kv) (snd kv)) _ (k, v)).
  apply peer_entries_spec. auto.
Qed.

(** ** One map for all sessions *)

Lemma heap_set_same (h : heap) (l : loc) (m : gmap string string) :
  heap_set h l m l = m.
Proof. unfold heap_set. rewrite Nat.eqb_refl. reflexivity. Qed.

(** C10.  [newSession] stores the handler's default map itself in the
    session: two sessions of one handler hold the same map, so an env
    request handled on the first writes the entry into the map the second
    reads, and into the map every session created afterwards receives;
    the second session's child environment then carries that entry. *)
Theorem C10_shared_env_map (handler : SessionChannelHandler) (h : heap)
    (ch1 ch2 ch3 : Channel) (request : Request) (m : envMsg) :
  Unmarshal.env (Payload request) = Some m ->
  let s1 := newSession handler ch1 (keepalive handler) in
  let s2 := newSession handler ch2 (keepalive handler) in
  let st1 := {| st_heap := h; st_sess := s1; st_waiter := None |} in
  let h' := st_heap (fst (handleEnvironmentRequest request st1)) in
  let s3 := newSession handler ch3 (keepalive handler) in
  env s1 = defaultEnv handler /\ env s2 = env s1 /\ env s3 = env s1 /\
  h' (env s2) = <[Name m := Value m]> (h (env s2)) /\
  h' (env s2) !! Name m = Some (Value m) /\
  h' (env s3) !! Name m = Some (Value m) /\
  (Name m <> "HOME" -> Name m <> "USER" ->
     In (entry (Name m) (Value m)) (environment order getenv h' s2) /\
     forall args cmd,
       snd (createCommand order getenv h' s2 args) = inl cmd ->
       In (entry (Name m) (Value m)) (Env cmd)).
Proof.
  intros Hm s1 s2 st1 h' s3.
  assert (Hh : h' (defaultEnv handler)
               = <[Name m := Value m]> (h (defaultEnv handler))).
  { unfold h', handleEnvironmentRequest. rewrite Hm. simpl.
    apply heap_set_same. }
  assert (Hl : h' (defaultEnv handler) !! Name m = Some (Value m)).
  { rewrite Hh. apply lookup_insert_eq. }
  repeat split; try exact Hh; try exact Hl.
  - apply environment_entry; auto.
  - intros args cmd Hcmd. rewrite createCommand_spec in Hcmd.
    cbn [command s2 newSession snd] in Hcmd. injection Hcmd as <-.
    cbn [Env new_command]. apply environment_entry; auto.
Qed.

(** ** What one step can be *)

Lemma quiet_reply (b c : bool) : quiet (if b then [EReply c] else []).
Proof. destruct b; repeat split. Qed.

Lemma quiet_app (a b : list effect) : quiet a -> quiet b -> quiet (a ++ b).
Proof.
  unfold quiet. rewrite !count_app. intros (-> & -> & -> & ->) (-> & -> & -> & ->).
  repeat split.
Qed.

Lemma executeShell_kind (o : outcome) (request : Request) (args : list string)
    (st : state) (ev : event) :
  is_launch_request ev = true -> is_scp_request ev = false ->
  step_kind order getenv st ev (fst (executeShell order getenv o request args st))
    (snd (executeShell order getenv o request args st)).
Proof.
  intros Hl Hs. destruct (command (st_sess st)) as [c|] eqn:Hc.
  - rewrite (executeShell_rejected o request args st c Hc). simpl.
    apply StepQuiet; auto using quiet_reply. congruence.
  - rewrite (executeShell_launched o request args st Hc).
    set (cmd := new_command order getenv _ _ _). set (sess1 := set_command _ _).
    destruct (launch_spec o sess1 cmd) as (_ & Hls & Hex & _ & Hst & Hwho & _).
    destruct (launch_session o sess1 cmd) as (Hcmd & Hcompl & _).
    set (sess2 := fst (fst (launch o sess1 cmd))) in *.
    set (e2 := snd (fst (launch o sess1 cmd))) in *.
    assert (Hrep : forall x, In x (if WantReply request then [EReply true] else []) ->
                     is_child_start x = false).
    { intros x Hx. destruct (WantReply request); simpl in Hx; [|tauto].
      destruct Hx as [<-|[]]. reflexivity. }
    destruct (snd (launch o sess1 cmd)) as [err|];
      cbn [fst snd st_sess st_heap st_waiter with_sess with_waiter].
    + destruct (destroy_spec sess2)
        as (Hdc & Hdcompl & _ & _ & _ & _ & Hdl & Hde & _ & Hds).
      destruct (sendExitMessage_spec sess2 (Some err)) as (Hse & Hsl & _ & Hss).
      apply (StepLaunchFailed _ _ _ _ _ _ args);
        cbn [fst snd st_sess st_heap st_waiter with_sess with_waiter]; auto.
      * rewrite Hdc, Hcmd. reflexivity.
      * rewrite !count_app, Hex, Hse, Hde, reply_spec by reflexivity. reflexivity.
      * rewrite !count_app, Hss, Hds, reply_spec by reflexivity. fold cmd sess1 e2. lia.
      * rewrite !count_app. fold cmd sess1 e2. lia.
      * intros x Hx Hsx. rewrite !in_app_iff in Hx.
        destruct Hx as [Hx|[Hx|[Hx|Hx]]].
        -- rewrite (Hrep x Hx) in Hsx. discriminate.
        -- exact (Hwho x Hx Hsx).
        -- rewrite (count_zero_none _ _ Hss x Hx) in Hsx. discriminate.
        -- rewrite (count_zero_none _ _ Hds x Hx) in Hsx. discriminate.
    + apply (StepLaunched _ _ _ _ _ _ args);
        cbn [fst snd st_sess st_heap st_waiter with_sess with_waiter]; auto.
      * rewrite !count_app, Hex, reply_spec by reflexivity. reflexivity.
      * rewrite !count_app, reply_spec by reflexivity. fold cmd sess1 e2. lia.
      * rewrite !count_app. fold cmd sess1 e2. lia.
      * intros x Hx Hsx. rewrite !in_app_iff in Hx. destruct Hx as [Hx|Hx].
        -- rewrite (Hrep x Hx) in Hsx. discriminate.
        -- exact (Hwho x Hx Hsx).
Qed.

Lemma executeSCP_kind (o : outcome) (cmd : string) (request : Request)
    (st : state) (ev : event) :
  is_launch_request ev = true -> is_scp_request ev = true ->
  step_kind order getenv st ev (fst (executeSCP o cmd request st))
    (snd (executeSCP o cmd request st)).
Proof.
  intros Hl Hs. rewrite executeSCP_effects.
  cbn [fst snd].
  destruct (destroy_spec (st_sess st))
    as (Hdc & Hdcompl & _ & _ & _ & _ & Hdl & Hde & _ & Hds).
  apply StepCopied; cbn [st_sess st_heap st_waiter with_sess]; auto;
    rewrite !count_app, ?Hdl, ?Hde, ?Hds, reply_spec by reflexivity;
    destruct (scp_new_fails o); reflexivity.
Qed.

Lemma waiterReturns_kind (err : option error) (st : state) :
  step_kind order getenv st (ChildReaped err) (fst (waiterReturns err st))
    (snd (waiterReturns err st)).
Proof.
  unfold waiterReturns. destruct (st_waiter st) as [c|] eqn:Hw.
  - destruct (destroy (st_sess st)) as [s' e2] eqn:Hd.
    destruct (destroy_spec (st_sess st))
      as (Hdc & Hdcompl & _ & _ & _ & _ & Hdl & Hde & _ & Hds).
    rewrite Hd in *. cbn [fst snd] in *.
    destruct (sendExitMessage_spec (st_sess st) err) as (Hse & Hsl & _ & Hss).
    apply (StepReaped _ _ _ _ _ _ c);
      cbn [st_sess st_heap st_waiter with_sess with_waiter]; auto;
      rewrite !count_app; lia.
  - apply StepQuiet; auto; try discriminate; repeat split.
Qed.

Lemma step_classify (st : state) (ev : event) :
  step_kind order getenv st ev (fst (step order getenv st ev)) (snd (step order getenv st ev)).
Proof.
  destruct ev as [request o | err]; [|apply waiterReturns_kind].
  cbn [step]. unfold serviceRequest.
  destruct (String.eqb (Type_ request) "env") eqn:T1.
  { apply String.eqb_eq in T1.
    unfold handleEnvironmentRequest, Reply.
    destruct (Unmarshal.env (Payload request));
      apply StepQuiet; simpl; rewrite ?T1; auto using quiet_reply;
      try discriminate; destruct (WantReply request); repeat split. }
  destruct (String.eqb (Type_ request) "signal") eqn:T2.
  { apply String.eqb_eq in T2.
    unfold handleSignalRequest, Reply.
    destruct (Unmarshal.signal (Payload request));
      apply StepQuiet; simpl; rewrite ?T2; auto; try discriminate;
      destruct (WantReply request), (command (st_sess st)); repeat split. }
  destruct (String.eqb (Type_ request) "pty-req") eqn:T3.
  { apply String.eqb_eq in T3.
    unfold handlePtyRequest, Reply.
    destruct (Unmarshal.ptyRequest (Payload request));
      apply StepQuiet; simpl; rewrite ?T3; auto; try discriminate;
      destruct (WantReply request); repeat split. }
  destruct (String.eqb (Type_ request) "window-change") eqn:T4.
  { apply String.eqb_eq in T4.
    unfold handleWindowChangeRequest, Reply, setWindowSize.
    destruct (Unmarshal.windowChange (Payload request));
      [|apply StepQuiet; simpl; rewrite ?T4; auto; try discriminate;
        destruct (WantReply request); repeat split].
    destruct (allocPty (st_sess st)) eqn:Ha; simpl;
      destruct (ptyMaster (st_sess st)) eqn:Hp;
      apply StepQuiet; simpl; rewrite ?T4, ?Ha, ?Hp; auto; try discriminate;
      destruct (WantReply request); repeat split. }
  destruct (String.eqb (Type_ request) "exec") eqn:T5.
  { apply String.eqb_eq in T5.
    unfold handleExecRequest.
    destruct (Unmarshal.exec (Payload request)) as [m|] eqn:Hm.
    - destruct (scpRegex_MatchString (Command m)) eqn:Hscp.
      + apply executeSCP_kind; simpl; rewrite T5, Hm; auto.
      + apply executeShell_kind; simpl; rewrite T5, Hm; auto.
    - apply StepQuiet; simpl; rewrite ?T5, ?Hm; auto using quiet_reply;
        try discriminate.
      unfold Reply. destruct (WantReply request); repeat split. }
  destruct (String.eqb (Type_ request) "shell") eqn:T6.
  { unfold handleShellRequest.
    apply executeShell_kind; simpl; rewrite ?T5, ?T6; reflexivity. }
  apply StepQuiet; simpl; rewrite ?T5, ?T6; auto; try discriminate.
  unfold Reply. destruct (WantReply request); repeat split.
Qed.

(** ** Whole runs: the command *)

(** Once a command is set it stays, and no child is started any more. *)
Lemma run_command_kept (evs : list event) (st : state) (c : Cmd) :
  command (st_sess st) = Some c ->
  command (st_sess (fst (run_events order getenv st evs))) = Some c /\
  count is_child_start (snd (run_events order getenv st evs)) = 0%nat.
Proof.
  revert st. induction evs as [|ev evs IH]; intros st Hc.
  - simpl. split; [exact Hc | reflexivity].
  - rewrite run_events_cons. cbn [fst snd]. rewrite count_app.
    destruct (step_classify st ev)
      as [Hk _ _ (_ & Hq & _) _ _ | args cmd _ _ Hn | args cmd _ _ Hn
          | _ _ Hk _ _ _ _ Hq _ | c' _ _ _ _ Hk _ _ _ Hq _];
      try congruence;
      (destruct (IH (fst (step order getenv st ev))) as [H1 H2];
       [congruence | split; [exact H1 | lia]]).
Qed.

(** A run that starts without a command either ends without one and has
    started no child, or it created exactly one command at some point of
    the run, from the state it was in at that point, and every child
    start of the run is the start of that command. *)
Lemma run_command_created (evs : list event) (st : state) :
  command (st_sess st) = None ->
  let st' := fst (run_events order getenv st evs) in
  let tr := snd (run_events order getenv st evs) in
  (command (st_sess st') = None /\ count is_child_start tr = 0%nat) \/
  (exists evs1 evs2 args,
     evs = evs1 ++ evs2 /\
     let st1 := fst (run_events order getenv st evs1) in
     let cmd := new_command order getenv (st_heap st1) (st_sess st1) args in
     command (st_sess st1) = None /\
     command (st_sess st') = Some cmd /\
     (count is_child_start tr <= 1)%nat /\
     forall x, In x tr -> is_child_start x = true -> exists pty, x = EStart cmd pty).
Proof.
  revert st. induction evs as [|ev evs IH]; intros st Hc st' tr.
  - left. split; [exact Hc | reflexivity].
  - subst st' tr. rewrite run_events_cons.
    pose proof (step_classify st ev) as Hkind.
    destruct (step order getenv st ev) as [st1 e1] eqn:Hstep.
    cbn [fst snd] in *.
    assert (Hquiet : command (st_sess st1) = None -> count is_child_start e1 = 0%nat ->
      (command (st_sess (fst (run_events order getenv st1 evs))) = None /\
       count is_child_start (e1 ++ snd (run_events order getenv st1 evs)) = 0%nat) \/
      (exists evs1 evs2 args,
         ev :: evs = evs1 ++ evs2 /\
         let st2 := fst (run_events order getenv st evs1) in
         let cmd := new_command order getenv (st_heap st2) (st_sess st2) args in
         command (st_sess st2) = None /\
         command (st_sess (fst (run_events order getenv st1 evs))) = Some cmd /\
         (count is_child_start (e1 ++ snd (run_events order getenv st1 evs)) <= 1)%nat /\
         forall x, In x (e1 ++ snd (run_events order getenv st1 evs)) ->
           is_child_start x = true -> exists pty, x = EStart cmd pty)).
    { intros Hn Hz. destruct (IH st1 Hn) as [[H1 H2] | (evs1 & evs2 & args & -> & Hn1 & H1 & H2 & H3)].
      - left. split; [exact H1|]. rewrite count_app. lia.
      - right. exists (ev :: evs1), evs2, args. split; [reflexivity|].
        rewrite run_events_cons, Hstep. cbn [fst].
        split; [exact Hn1|]. split; [exact H1|]. split; [rewrite count_app; lia|].
        intros x Hx Hs. apply in_app_or in Hx. destruct Hx as [Hx|Hx].
        + rewrite (count_zero_none _ _ Hz x Hx) in Hs. discriminate.
        + exact (H3 x Hx Hs). }
    assert (Hmade : forall args,
      command (st_sess st1) = Some (new_command order getenv (st_heap st) (st_sess st) args) ->
      (count is_child_start e1 <= 1)%nat ->
      (forall x, In x e1 -> is_child_start x = true ->
         exists pty, x = EStart (new_command order getenv (st_heap st) (st_sess st) args) pty) ->
      exists evs1 evs2 args,
         ev :: evs = evs1 ++ evs2 /\
         let st2 := fst (run_events order getenv st evs1) in
         let cmd := new_command order getenv (st_heap st2) (st_sess st2) args in
         command (st_sess st2) = None /\
         command (st_sess (fst (run_events order getenv st1 evs))) = Some cmd /\
         (count is_child_start (e1 ++ snd (run_events order getenv st1 evs)) <= 1)%nat /\
         forall x, In x (e1 ++ snd (run_events order getenv st1 evs)) ->
           is_child_start x = true -> exists pty, x = EStart cmd pty).
    { intros args Hs1 Hle Hwho.
      destruct (run_command_kept evs st1 _ Hs1) as [K1 K2].
      exists [], (ev :: evs), args. split; [reflexivity|]. simpl.
      split; [exact Hc|]. split; [exact K1|]. split; [rewrite count_app; lia|].
      intros x Hx Hs. apply in_app_or in Hx. destruct Hx as [Hx|Hx].
      - exact (Hwho x Hx Hs).
      - rewrite (count_zero_none _ _ K2 x Hx) in Hs. discriminate. }
    destruct Hkind
      as [Hk _ _ (_ & Hq & _) _ _
          | args cmd _ _ _ Hk _ _ _ _ Hle _ Hwho
          | args cmd _ _ _ Hk _ _ _ _ Hle _ Hwho
          | _ _ Hk _ _ _ _ Hq _ | c' _ _ _ _ Hk _ _ _ Hq _].
    + apply Hquiet; congruence.
    + right. apply (Hmade args); assumption.
    + right. apply (Hmade args); assumption.
    + apply Hquiet; congruence.
    + apply Hquiet; congruence.
Qed.

(** X21.  A session creates at most one child command: a run
    from a fresh session starts at most one child; once the command handle
    is set, no later request replaces it or starts a child; every later
    shell request, and every later exec request whose command does not
    match the scp pattern, fails command creation with "command already
    started", gets a negative reply when want_reply is set, and changes
    nothing. *)
Theorem X21_one_command (h : heap) (handler : SessionChannelHandler)
    (ch : Channel) (evs : list event) :
  (count is_child_start
     (snd (run_events order getenv (initial h handler ch) evs)) <= 1)%nat /\
  (forall st c later,
     command (st_sess st) = Some c ->
     command (st_sess (fst (run_events order getenv st later))) = Some c /\
     count is_child_start (snd (run_events order getenv st later)) = 0%nat) /\
  (forall st c o request,
     command (st_sess st) = Some c ->
     (Type_ request = "shell" \/
      (Type_ request = "exec" /\
       exists m, Unmarshal.exec (Payload request) = Some m /\
                 scpRegex_MatchString (Command m) = false)) ->
     (forall args,
        snd (createCommand order getenv (st_heap st) (st_sess st) args)
        = inr "command already started") /\
     serviceRequest order getenv o request st
     = (st, if WantReply request then [EReply false] else [])).
Proof.
  split; [|split].
  - destruct (run_command_created evs (initial h handler ch) eq_refl)
      as [[_ H] | (_ & _ & _ & _ & _ & _ & H & _)]; lia.
  - intros st c later Hc. apply run_command_kept. exact Hc.
  - intros st c o request Hc Hreq. split.
    + intros args. rewrite createCommand_spec, Hc. reflexivity.
    + destruct Hreq as [Ht | (Ht & m & Hm & Hscp)].
      * rewrite (serviceRequest_shell _ _ _ Ht).
        apply (executeShell_rejected _ _ _ _ c Hc).
      * rewrite (serviceRequest_exec _ _ _ Ht).
        unfold handleExecRequest. rewrite Hm, Hscp.
        apply (executeShell_rejected _ _ _ _ c Hc).
Qed.

(** ** Whole runs: the environment vector *)

(** The command of a run, and every child the run starts, carries the
    vector [environment] built in the state the run was in when the
    command was created. *)
Lemma run_command_env (h : heap) (handler : SessionChannelHandler)
    (ch : Channel) (evs : list event) (cmd : Cmd) :
  let st' := fst (run_events order getenv (initial h handler ch) evs) in
  let tr := snd (run_events order getenv (initial h handler ch) evs) in
  (command (st_sess st') = Some cmd \/ exists pty, In (EStart cmd pty) tr) ->
  exists evs1 evs2,
    evs = evs1 ++ evs2 /\
    let st1 := fst (run_events order getenv (initial h handler ch) evs1) in
    Env cmd = environment order getenv (st_heap st1) (st_sess st1).
Proof.
  intros st' tr Hcmd. subst st' tr.
  pose proof (run_command_created evs (initial h handler ch) eq_refl) as Hrun.
  cbn zeta in Hrun.
  destruct Hrun as [[Hn Hz] | (evs1 & evs2 & args & -> & _ & Hc & _ & Hwho)].
  - destruct Hcmd as [Hcmd | [pty Hin]]; [congruence|].
    pose proof (count_zero_none _ _ Hz _ Hin) as F. discriminate F.
  - exists evs1, evs2. split; [reflexivity|].
    destruct Hcmd as [Hcmd | [pty Hin]].
    + rewrite Hc in Hcmd. injection Hcmd as <-. reflexivity.
    + destruct (Hwho _ Hin eq_refl) as [pty' Heq].
      injection Heq as -> _. reflexivity.
Qed.

(** C1.  Whatever requests a session has handled, the environment vector
    of the command it creates (and of every child it starts) ends with
    HOME and USER set from the daemon's own process environment, and the
    entries copied from the session's env map, which is where env requests
    write, leave out every entry named HOME or USER. *)
Theorem C1_home_user_from_daemon (h : heap) (handler : SessionChannelHandler)
    (ch : Channel) (evs : list event) (cmd : Cmd) :
  let st' := fst (run_events order getenv (initial h handler ch) evs) in
  let tr := snd (run_events order getenv (initial h handler ch) evs) in
  (command (st_sess st') = Some cmd \/ exists pty, In (EStart cmd pty) tr) ->
  exists evs1 evs2,
    evs = evs1 ++ evs2 /\
    let st1 := fst (run_events order getenv (initial h handler ch) evs1) in
    let m := st_heap st1 (env (st_sess st1)) in
    Env cmd
    = ["PATH=/bin:/usr/bin"; "LANG=en_US.UTF8"]
      ++ List.map (fun kv => entry (fst kv) (snd kv)) (peer_entries order m)
      ++ [entry "HOME" (getenv "HOME"); entry "USER" (getenv "USER")] /\
    (forall k v, In (k, v) (peer_entries order m) ->
       k <> "HOME" /\ k <> "USER" /\ m !! k = Some v) /\
    (forall v, ~ In ("HOME", v) (peer_entries order m)) /\
    (forall v, ~ In ("USER", v) (peer_entries order m)).
Proof.
  intros st' tr Hcmd.
  destruct (run_command_env h handler ch evs cmd Hcmd) as (evs1 & evs2 & -> & Henv).
  exists evs1, evs2. split; [reflexivity|]. cbn zeta in *.
  split; [rewrite Henv; apply environment_shape|].
  split; [|split].
  - intros k v Hin. apply peer_entries_spec in Hin. tauto.
  - intros v Hin. apply peer_entries_spec in Hin. tauto.
  - intros v Hin. apply peer_entries_spec in Hin. tauto.
Qed.

(** C5 (as amended).  The environment vector of the command a session
    creates always starts with PATH=/bin:/usr/bin and LANG=en_US.UTF8, in
    that order, and no env request changes these two entries; but entries
    of the session's env map named PATH or LANG are not filtered out:
    like every entry not named HOME or USER they follow in the vector. *)
Theorem C5_path_lang_first (h : heap) (handler : SessionChannelHandler)
    (ch : Channel) (evs : list event) (cmd : Cmd) :
  let st' := fst (run_events order getenv (initial h handler ch) evs) in
  let tr := snd (run_events order getenv (initial h handler ch) evs) in
  (command (st_sess st') = Some cmd \/ exists pty, In (EStart cmd pty) tr) ->
  exists evs1 evs2 rest,
    evs = evs1 ++ evs2 /\
    let st1 := fst (run_events order getenv (initial h handler ch) evs1) in
    let m := st_heap st1 (env (st_sess st1)) in
    Env cmd = "PATH=/bin:/usr/bin" :: "LANG=en_US.UTF8" :: rest /\
    (forall k v, m !! k = Some v -> k <> "HOME" -> k <> "USER" ->
       In (entry k v) rest) /\
    (forall v, m !! "PATH" = Some v -> In (entry "PATH" v) rest) /\
    (forall v, m !! "LANG" = Some v -> In (entry "LANG" v) rest).
Proof.
  intros st' tr Hcmd.
  destruct (run_command_env h handler ch evs cmd Hcmd) as (evs1 & evs2 & -> & Henv).
  cbn zeta in Henv. rewrite environment_shape in Henv.
  eexists evs1, evs2, _. split; [reflexivity|]. cbn zeta.
  split; [exact Henv|].
  assert (Hall : forall k v,
            st_heap (fst (run_events order getenv (initial h handler ch) evs1))
              (env (st_sess (fst (run_events order getenv (initial h handler ch) evs1))))
              !! k = Some v ->
            k <> "HOME" -> k <> "USER" ->
            In (entry k v)
              (List.map (fun kv => entry (fst kv) (snd kv))
                 (peer_entries order
                    (st_heap (fst (run_events order getenv (initial h handler ch) evs1))
                       (env (st_sess (fst (run_events order getenv (initial h handler ch) evs1))))))
               ++ [entry "HOME" (getenv "HOME"); entry "USER" (getenv "USER")])).
  { intros k v Hk H1 H2. apply in_or_app. left.
    apply (in_map (fun kv => entry (fst kv) (snd kv)) _ (k, v)).
    apply peer_entries_spec. auto. }
  split; [exact Hall|].
  split; intros v Hv; apply Hall; auto; discriminate.
Qed.

(** ** Whole runs: the exit notification *)

Lemma step_regular (st : state) (ev : event) :
  regular st = true -> is_scp_request ev = false ->
  regular (fst (step order getenv st ev)) = true /\
  (count is_exit_notification (snd (step order getenv st ev)) + sent st
   = sent (fst (step order getenv st ev)))%nat.
Proof.
  intros Hr Hs. unfold regular, sent in *.
  destruct (step_classify st ev)
    as [H1 H2 H3 (Hq & _) _ _
        | args cmd _ _ Hn H1 H2 H3 _ Hq _ _ _
        | args cmd _ _ Hn H1 H2 H3 _ Hq _ _ _
        | _ Hscp _ _ _ _ _ _ _
        | c _ _ Hw H2 H1 H3 _ Hq _ _];
    try congruence;
    rewrite ?H1, ?H2, ?H3, ?Hq in *;
    try rewrite Hn in Hr; try rewrite Hw in Hr;
    destruct (command (st_sess st)), (st_waiter st), (complete (st_sess st));
    try discriminate; auto.
Qed.

Lemma step_settled (st : state) (ev : event) :
  settled st = true -> is_launch_request ev = false ->
  settled (fst (step order getenv st ev)) = true /\
  (count is_exit_notification (snd (step order getenv st ev)) + sent st
   = sent (fst (step order getenv st ev)))%nat /\
  (st_waiter st = None ->
   command (st_sess (fst (step order getenv st ev))) = command (st_sess st) /\
   st_waiter (fst (step order getenv st ev)) = None /\
   complete (st_sess (fst (step order getenv st ev))) = complete (st_sess st)).
Proof.
  intros Hr Hl. unfold settled, regular, sent in *.
  destruct (step_classify st ev)
    as [H1 H2 H3 (Hq & _) _ _
        | args cmd Hl' _ Hn H1 H2 H3 _ Hq _ _ _
        | args cmd Hl' _ Hn H1 H2 H3 _ Hq _ _ _
        | Hl' _ _ _ _ _ _ _ _
        | c _ _ Hw H2 H1 H3 _ Hq _ _];
    try congruence;
    rewrite ?H1, ?H2, ?H3, ?Hq in *;
    try rewrite Hw in Hr;
    destruct (command (st_sess st)), (st_waiter st), (complete (st_sess st));
    try discriminate; auto; repeat split; auto; discriminate.
Qed.

Lemma filter_cons_length {A} (p : A -> bool) (a : A) (l : list A) :
  length (List.filter p (a :: l))
  = ((if p a then 1 else 0) + length (List.filter p l))%nat.
Proof. simpl. destruct (p a); reflexivity. Qed.

Lemma run_regular (evs : list event) (st : state) :
  regular st = true -> scp_requests evs = 0%nat ->
  regular (fst (run_events order getenv st evs)) = true /\
  (count is_exit_notification (snd (run_events order getenv st evs)) + sent st
   = sent (fst (run_events order getenv st evs)))%nat.
Proof.
  revert st. induction evs as [|ev evs IH]; intros st Hr Hs.
  - simpl. auto.
  - unfold scp_requests in Hs. rewrite filter_cons_length in Hs.
    destruct (is_scp_request ev) eqn:Hev; [discriminate|].
    destruct (step_regular st ev Hr Hev) as [H1 H2].
    destruct (IH _ H1 Hs) as [H3 H4].
    rewrite run_events_cons. cbn [fst snd]. rewrite count_app.
    split; [exact H3 | lia].
Qed.

Lemma run_settled (evs : list event) (st : state) :
  settled st = true -> launch_requests evs = 0%nat ->
  settled (fst (run_events order getenv st evs)) = true /\
  (count is_exit_notification (snd (run_events order getenv st evs)) + sent st
   = sent (fst (run_events order getenv st evs)))%nat /\
  (st_waiter st = None ->
   command (st_sess (fst (run_events order getenv st evs))) = command (st_sess st) /\
   st_waiter (fst (run_events order getenv st evs)) = None /\
   complete (st_sess (fst (run_events order getenv st evs))) = complete (st_sess st)).
Proof.
  revert st. induction evs as [|ev evs IH]; intros st Hr Hs.
  - simpl. auto.
  - unfold launch_requests in Hs. rewrite filter_cons_length in Hs.
    destruct (is_launch_request ev) eqn:Hev; [discriminate|].
    destruct (step_settled st ev Hr Hev) as (H1 & H2 & H3).
    destruct (IH _ H1 Hs) as (H4 & H5 & H6).
    rewrite run_events_cons. cbn [fst snd]. rewrite count_app.
    split; [exact H4|]. split; [lia|].
    intros Hw. destruct (H3 Hw) as (K1 & K2 & K3).
    destruct (H6 K2) as (L1 & L2 & L3). repeat split; congruence.
Qed.

(** The one launch request of a run, from a session that has no command
    and has not been torn down. *)
Lemma step_first_launch (st : state) (ev : event) :
  command (st_sess st) = None -> st_waiter st = None ->
  complete (st_sess st) = false -> is_launch_request ev = true ->
  settled (fst (step order getenv st ev)) = true /\
  count is_exit_notification (snd (step order getenv st ev))
  = sent (fst (step order getenv st ev)).
Proof.
  intros Hc Hw Hd Hl. unfold settled, regular, sent.
  destruct (step_classify st ev)
    as [_ _ _ _ Hno _
        | args cmd _ _ _ H1 H2 H3 _ Hq _ _ _
        | args cmd _ _ _ H1 H2 H3 _ Hq _ _ _
        | _ _ H1 H2 H3 _ Hq _ _
        | c Hl' _ _ _ _ _ _ _ _ _];
    try congruence.
  - destruct (Hno Hl Hc).
  - rewrite H1, H2, H3, Hd, Hq. auto.
  - rewrite H1, H2, H3, Hw, Hq. auto.
  - rewrite H1, H2, H3, Hc, Hw, Hq. auto.
Qed.

Lemma single_launch_split (evs : list event) :
  launch_requests evs = 1%nat ->
  exists pre ev post,
    evs = pre ++ ev :: post /\ is_launch_request ev = true /\
    launch_requests pre = 0%nat /\ launch_requests post = 0%nat.
Proof.
  unfold launch_requests. induction evs as [|a evs IH]; [discriminate|].
  rewrite filter_cons_length. destruct (is_launch_request a) eqn:Ha; intros H.
  - exists [], a, evs. repeat split; auto; simpl in H; lia.
  - destruct (IH H) as (pre & ev & post & -> & Hev & Hpre & Hpost).
    exists (a :: pre), ev, post. repeat split; auto.
    rewrite filter_cons_length, Ha. exact Hpre.
Qed.

(** C2 (as amended).  For a request sequence in which a command for the
    copier, if there is one, is the only exec or shell request that
    decodes: at most one exit notification is sent; exactly one has been
    sent precisely when teardown has run, which happens after a failed
    launch, after the copy, or after the launched child is reaped; and no
    exit notification is sent before the first exec or shell request, so a
    sequence without one sends none. *)
Theorem C2_one_exit_notification (h : heap) (handler : SessionChannelHandler)
    (ch : Channel) (evs : list event) :
  scp_requests evs = 0%nat \/ launch_requests evs = 1%nat ->
  let st' := fst (run_events order getenv (initial h handler ch) evs) in
  let tr := snd (run_events order getenv (initial h handler ch) evs) in
  (count is_exit_notification tr <= 1)%nat /\
  (count is_exit_notification tr = 1%nat <-> complete (st_sess st') = true) /\
  (forall pre post, evs = pre ++ post -> launch_requests pre = 0%nat ->
     count is_exit_notification
       (snd (run_events order getenv (initial h handler ch) pre)) = 0%nat).
Proof.
  intros Hyp st' tr.
  assert (Hsent : count is_exit_notification tr = sent st').
  { subst st' tr. destruct Hyp as [Hscp | Hone].
    - destruct (run_regular evs (initial h handler ch) eq_refl Hscp) as [_ H].
      unfold sent at 1 in H. simpl in H. lia.
    - destruct (single_launch_split evs Hone)
        as (pre & ev & post & -> & Hev & Hpre & Hpost).
      destruct (run_settled pre (initial h handler ch) eq_refl Hpre)
        as (_ & H1 & H2).
      destruct (H2 eq_refl) as (K1 & K2 & K3).
      unfold sent in H1. rewrite K3 in H1. simpl in H1.
      rewrite run_events_app, run_events_cons. cbn [fst snd].
      set (st1 := fst (run_events order getenv (initial h handler ch) pre)) in *.
      destruct (step_first_launch st1 ev K1 K2 K3 Hev) as [S1 S2].
      destruct (run_settled post _ S1 Hpost) as (_ & P1 & _).
      rewrite !count_app. lia. }
  rewrite Hsent. unfold sent. split; [|split].
  - destruct (complete (st_sess st')); lia.
  - destruct (complete (st_sess st')); split; intros; congruence.
  - intros pre post _ Hpre.
    destruct (run_settled pre (initial h handler ch) eq_refl Hpre) as (_ & H1 & H2).
    destruct (H2 eq_refl) as (_ & _ & K3).
    unfold sent in H1. rewrite K3 in H1. simpl in H1. lia.
Qed.

End Properties.

(** * The theorems at concrete sessions *)

Lemma C1_home_user_from_daemon_witness :
  command (st_sess (fst (run_fresh env_then_exec))) = Some env_cmd /\
  exists evs1 evs2,
    env_then_exec = evs1 ++ evs2 /\
    forall v,
      ~ In ("HOME", v)
          (peer_entries canonical_order
             (st_heap (fst (run_fresh evs1)) (env (st_sess (fst (run_fresh evs1)))))).
Proof.
  assert (H : command (st_sess (fst (run_fresh env_then_exec))) = Some env_cmd)
    by (vm_compute; reflexivity).
  split; [exact H|].
  destruct (C1_home_user_from_daemon canonical_order daemon_env empty_heap
              a_handler 1%nat env_then_exec env_cmd (or_introl H))
    as (evs1 & evs2 & He & _ & _ & Hhome & _).
  exists evs1, evs2. split; [exact He | exact Hhome].
Defined.

Lemma X20_exit_message_cases_witness :
  let sess := newSession {| shellLocator_ShellPath := "/bin/sh";
                            defaultEnv := 0%nat; keepalive := 30 |} 1%nat 30 in
  let failing := {| stdin_pipe_fails := false; start_fails := true;
                    pty_open := None; scp_new_fails := false;
                    scp_copy_fails := false |} in
  WaitStatus.Exited 768 = true /\
  sendExitMessage sess (Some (ExitError (Some 768)))
    = [ESendRequest 1%nat "exit-status" false (marshalUint32 3)] /\
  WaitStatus.Signaled 139 = true /\
  sendExitMessage sess (Some (ExitError (Some 139)))
    = [ESendRequest 1%nat "exit-signal" false
         (marshalString "SEGV" +:+ marshalBool true
          +:+ marshalString "" +:+ marshalString "")] /\
  snd (run failing sess (exec_Command "/bin/sh" [])) = Some OtherError /\
  sendExitMessage sess (snd (run failing sess (exec_Command "/bin/sh" [])))
    = [ESendRequest 1%nat "exit-status" false (marshalUint32 255)].
Proof.
  intros sess failing.
  destruct (X20_exit_message_cases canonical_order daemon_env sess)
    as (_ & _ & Hexit & Hsig & _ & _ & Hrun & _).
  split; [reflexivity|].
  split; [exact (proj1 (Hexit 768 eq_refl))|].
  split; [reflexivity|].
  split; [exact (Hsig 139 eq_refl)|].
  split; [reflexivity|].
  exact (Hrun failing (exec_Command "/bin/sh" []) _ OtherError eq_refl).
Defined.


(** A session that is only sent an env request never sends an exit
    notification: the count is zero, not one. *)
Lemma C2_counterexample :
  count is_exit_notification
    (snd (run_fresh [Incoming (envRequest true "EDITOR" "vi") all_ok])) = 0%nat /\
  count is_exit_notification
    (snd (run_fresh [Incoming (envRequest true "EDITOR" "vi") all_ok])) <> 1%nat.
Proof. split; [vm_compute; reflexivity | vm_compute; discriminate]. Qed.

(** A launched shell followed by an exec for the copier: the copier path
    reports its own exit status, and the waiting goroutine reports the
    child's when it is reaped. *)
Example copier_after_launch :
  count is_exit_notification
    (snd (run_fresh [Incoming (shellRequest true) all_ok;
                     Incoming (execRequest true "scp -t /tmp") all_ok;
                     ChildReaped None])) = 2%nat.
Proof. vm_compute. reflexivity. Qed.

Lemma C2_one_exit_notification_witness :
  (scp_requests shell_then_reaped = 0%nat \/
   launch_requests shell_then_reaped = 1%nat) /\
  (count is_exit_notification (snd (run_fresh shell_then_reaped)) <= 1)%nat /\
  (count is_exit_notification (snd (run_fresh shell_then_reaped)) = 1%nat
   <-> complete (st_sess (fst (run_fresh shell_then_reaped))) = true).
Proof.
  assert (H : scp_requests shell_then_reaped = 0%nat \/
              launch_requests shell_then_reaped = 1%nat)
    by (left; vm_compute; reflexivity).
  split; [exact H|].
  destruct (C2_one_exit_notification canonical_order daemon_env empty_heap
              a_handler 1%nat shell_then_reaped H) as (H1 & H2 & _).
  split; [exact H1 | exact H2].
Defined.

(** C4.  The code at the input where it departs from the claim: once a
    shell request has set the command handle and started the child, an
    exec request for the copier with want_reply set does not fail command
    creation and is not answered negatively.  [handleExecRequest] hands
    it to [executeSCP], which has no test for a command that is already
    started: the reply is positive, the copier runs, an exit-status is
    sent and the session is torn down while the child of the shell
    request is still awaited. *)
Lemma C4_second_exec_accepted :
  let st1 := fst (handleShellRequest canonical_order daemon_env all_ok
                    (shellRequest true) fresh) in
  let second := handleExecRequest canonical_order daemon_env all_ok
                  (execRequest true "scp -t /tmp") st1 in
  let cmd := {| Path := "/bin/sh"; Args := ["/bin/sh"];
                Env := ["PATH=/bin:/usr/bin"; "LANG=en_US.UTF8";
                        "HOME=/home/vcap"; "USER=vcap"] |} in
  command (st_sess st1) = Some cmd /\
  st_waiter st1 = Some cmd /\
  snd second
    = [EReply true; ESCPNewFromCommand "scp -t /tmp"; ESCPCopy "scp -t /tmp";
       ESendRequest 1%nat "exit-status" false (marshalUint32 0);
       EChannelClose 1%nat] /\
  ~ In (EReply false) (snd second) /\
  complete (st_sess (fst second)) = true /\
  st_waiter (fst second) = Some cmd /\
  snd (serviceRequest canonical_order daemon_env all_ok
         (execRequest true "scp -t /tmp") st1) = snd second.
Proof.
  split; [vm_compute; reflexivity|]. split; [vm_compute; reflexivity|].
  split; [vm_compute; reflexivity|].
  split; [vm_compute; intuition discriminate|].
  split; [vm_compute; reflexivity|]. split; vm_compute; reflexivity.
Qed.

Lemma X21_one_command_witness :
  let st1 := fst (run_fresh [Incoming (shellRequest true) all_ok]) in
  let c := {| Path := "/bin/sh"; Args := ["/bin/sh"];
              Env := ["PATH=/bin:/usr/bin"; "LANG=en_US.UTF8";
                      "HOME=/home/vcap"; "USER=vcap"] |} in
  command (st_sess st1) = Some c /\
  Type_ (execRequest true "/bin/true") = "exec" /\
  Unmarshal.exec (Payload (execRequest true "/bin/true"))
    = Some {| Command := "/bin/true" |} /\
  scpRegex_MatchString "/bin/true" = false /\
  serviceRequest canonical_order daemon_env all_ok
    (execRequest true "/bin/true") st1 = (st1, [EReply false]) /\
  count is_child_start
    (snd (run_events canonical_order daemon_env st1
            [Incoming (execRequest true "/bin/true") all_ok;
             Incoming (shellRequest false) all_ok])) = 0%nat.
Proof.
  intros st1 c.
  assert (Hc : command (st_sess st1) = Some c) by (vm_compute; reflexivity).
  assert (Hm : Unmarshal.exec (Payload (execRequest true "/bin/true"))
               = Some {| Command := "/bin/true" |}) by (vm_compute; reflexivity).
  destruct (X21_one_command canonical_order daemon_env empty_heap a_handler
              1%nat []) as (_ & Hkept & Hrej).
  split; [exact Hc|]. split; [reflexivity|]. split; [exact Hm|].
  split; [reflexivity|]. split.
  - apply (proj2 (Hrej st1 c all_ok (execRequest true "/bin/true") Hc
                    (or_intror (conj eq_refl
                       (ex_intro _ {| Command := "/bin/true" |}
                          (conj Hm eq_refl)))))).
  - apply (proj2 (Hkept st1 c _ Hc)).
Defined.

(** An env request naming PATH puts its own PATH entry into the child's
    environment vector, after the fixed one: the vector holds a second
    PATH entry, and a reader for which later entries win sees the peer's
    value. *)
Lemma C5_counterexample :
  command (st_sess (fst (run_fresh path_then_shell))) = Some path_cmd /\
  In "PATH=/evil" (Env path_cmd) /\
  last_value "PATH" (Env path_cmd) = Some "/evil" /\
  In (EStart path_cmd false) (snd (run_fresh path_then_shell)).
Proof.
  split; [vm_compute; reflexivity|].
  split; [simpl; tauto|].
  split; [vm_compute; reflexivity|].
  vm_compute. tauto.
Qed.

Lemma C5_path_lang_first_witness :
  command (st_sess (fst (run_fresh path_then_shell))) = Some path_cmd /\
  exists evs1 evs2 rest,
    path_then_shell = evs1 ++ evs2 /\
    Env path_cmd = "PATH=/bin:/usr/bin" :: "LANG=en_US.UTF8" :: rest /\
    forall v,
      st_heap (fst (run_fresh evs1)) (env (st_sess (fst (run_fresh evs1))))
        !! "PATH" = Some v ->
      In (entry "PATH" v) rest.
Proof.
  assert (H : command (st_sess (fst (run_fresh path_then_shell))) = Some path_cmd)
    by (vm_compute; reflexivity).
  split; [exact H|].
  destruct (C5_path_lang_first canonical_order daemon_env empty_heap
              a_handler 1%nat path_then_shell path_cmd (or_introl H))
    as (evs1 & evs2 & rest & He & Hv & _ & Hp & _).
  exists evs1, evs2, rest. split; [exact He|]. split; [exact Hv | exact Hp].
Defined.

Lemma C7_reply_before_start_witness :
  WantReply (shellRequest true) = true /\
  Type_ (shellRequest true) = "shell" /\
  command (st_sess fresh) = None /\
  exists rest,
    snd (run_fresh [Incoming (shellRequest true) all_ok; ChildReaped None])
    = EReply true :: rest.
Proof.
  split; [reflexivity|]. split; [reflexivity|]. split; [reflexivity|].
  destruct (C7_reply_before_start canonical_order daemon_env all_ok
              (shellRequest true) fresh [ChildReaped None] eq_refl
              (or_introl (conj eq_refl eq_refl))) as (rest & Hrest & _).
  exists rest. exact Hrest.
Defined.

Lemma C8_malformed_payload_witness :
  decode_fails truncated_env = true /\
  fst (serviceRequest canonical_order daemon_env all_ok truncated_env fresh) = fresh /\
  snd (serviceRequest canonical_order daemon_env all_ok truncated_env fresh)
    = [EReply false].
Proof.
  split; [reflexivity|].
  destruct (C8_malformed_payload canonical_order daemon_env all_ok
              truncated_env fresh eq_refl) as (H1 & H2 & _).
  split; [exact H1 | exact H2].
Defined.


Lemma C10_shared_env_map_witness :
  Unmarshal.env (Payload (envRequest true "EDITOR" "vi"))
    = Some {| Name := "EDITOR"; Value := "vi" |} /\
  let s1 := newSession a_handler 1%nat 30 in
  let s2 := newSession a_handler 2%nat 30 in
  let h' := st_heap (fst (handleEnvironmentRequest (envRequest true "EDITOR" "vi")
                            {| st_heap := empty_heap; st_sess := s1;
                               st_waiter := None |})) in
  env s2 = env s1 /\
  h' (env s2) !! "EDITOR" = Some "vi" /\
  In "EDITOR=vi" (environment canonical_order daemon_env h' s2).
Proof.
  assert (Hm : Unmarshal.env (Payload (envRequest true "EDITOR" "vi"))
               = Some {| Name := "EDITOR"; Value := "vi" |})
    by (vm_compute; reflexivity).
  split; [exact Hm|].
  destruct (C10_shared_env_map canonical_order daemon_env a_handler empty_heap
              1%nat 2%nat 3%nat (envRequest true "EDITOR" "vi") _ Hm)
    as (_ & H2 & _ & _ & H5 & _ & H7).
  split; [exact H2|]. split; [exact H5|].
  apply H7; discriminate.
Defined.

(** * More properties of the handler *)

(** ** The shell locator *)

Lemma first_shell_none (lookPath : string -> option string)
    (candidates : list string) :
  (forall c, In c candidates -> lookPath c = None) ->
  first_shell lookPath candidates = None.
Proof.
  induction candidates as [|c cs IH]; simpl; intros H; [reflexivity|].
  rewrite (H c (or_introl eq_refl)). apply IH. intros x Hx. apply H. right. exact Hx.
Qed.

Lemma first_shell_first (lookPath : string -> option string)
    (before after : list string) (c path : string) :
  (forall x, In x before -> lookPath x = None) ->
  lookPath c = Some path ->
  first_shell lookPath (before ++ c :: after) = Some path.
Proof.
  induction before as [|b bs IH]; simpl; intros Hb Hc.
  - rewrite Hc. reflexivity.
  - rewrite (Hb b (or_introl eq_refl)). apply IH; [|exact Hc].
    intros x Hx. apply Hb. right. exact Hx.
Qed.

(** X1.  [ShellPath] returns what [exec.LookPath] finds for the first
    candidate of /bin/bash, /usr/local/bin/bash, /bin/sh, bash, sh that it
    finds at all, whatever it would find for later candidates, and /bin/sh
    when it finds none: the locator never fails. *)
Theorem X1_ShellPath_priority (lookPath : string -> option string) :
  ((forall c, In c shell_candidates -> lookPath c = None) ->
   ShellPath lookPath = "/bin/sh") /\
  (forall before c after path,
     shell_candidates = before ++ c :: after ->
     (forall x, In x before -> lookPath x = None) ->
     lookPath c = Some path ->
     ShellPath lookPath = path).
Proof.
  unfold ShellPath. split.
  - intros H. rewrite (first_shell_none _ _ H). reflexivity.
  - intros before c after path Hs Hb Hc.
    rewrite Hs, (first_shell_first _ _ _ _ _ Hb Hc). reflexivity.
Qed.

(** ** The keepalive loop *)

Lemma keepalive_loop_ok (sess : session) (command : Cmd)
    (pre post : list keepalive_event) :
  Forall (fun ev => ev = Tick false) pre ->
  keepalive_loop sess command (pre ++ post)
  = List.map (fun _ => ESendRequest (channel sess) "keepalive@cloudfoundry.org" true "") pre
    ++ keepalive_loop sess command post.
Proof.
  induction 1 as [|ev pre Hev _ IH]; [reflexivity|].
  subst ev. simpl. rewrite IH. reflexivity.
Qed.

(** X2.  The keepalive loop sends one keepalive request per tick as long
    as the requests go through.  On the first request that fails it
    signals SIGHUP to the child, once, and ends; on the stop signal it
    ends without signalling.  Whatever comes after has no effect, and the
    loop never sends an exit notification. *)
Theorem X2_keepalive_loop (sess : session) (command : Cmd)
    (pre post : list keepalive_event) :
  Forall (fun ev => ev = Tick false) pre ->
  let beat := ESendRequest (channel sess) "keepalive@cloudfoundry.org" true "" in
  keepalive_loop sess command (pre ++ Tick true :: post)
    = List.map (fun _ => beat) pre ++ [beat; ESignal command Signals.SIGHUP] /\
  keepalive_loop sess command (pre ++ Stop :: post)
    = List.map (fun _ => beat) pre /\
  keepalive_loop sess command pre = List.map (fun _ => beat) pre /\
  (forall evs, count is_exit_notification (keepalive_loop sess command evs) = 0%nat) /\
  (forall evs, (count is_signal (keepalive_loop sess command evs) <= 1)%nat).
Proof.
  intros Hpre beat. repeat split.
  - rewrite (keepalive_loop_ok _ _ _ _ Hpre). reflexivity.
  - rewrite (keepalive_loop_ok _ _ _ _ Hpre). simpl. apply app_nil_r.
  - rewrite <- (app_nil_r pre) at 1. rewrite (keepalive_loop_ok _ _ _ _ Hpre).
    simpl. apply app_nil_r.
  - intros evs. induction evs as [|[[]|] evs IH]; simpl; try reflexivity.
    rewrite count_cons. simpl. exact IH.
  - intros evs. induction evs as [|[[]|] evs IH]; simpl; try (unfold count; simpl; lia).
    rewrite count_cons. simpl. exact IH.
Qed.

Lemma X2_keepalive_loop_witness :
  let sess := st_sess fresh in
  Forall (fun ev => ev = Tick false) [Tick false; Tick false] /\
  keepalive_loop sess env_cmd [Tick false; Tick false; Tick true; Tick false; Stop]
  = [ESendRequest 1%nat "keepalive@cloudfoundry.org" true "";
     ESendRequest 1%nat "keepalive@cloudfoundry.org" true "";
     ESendRequest 1%nat "keepalive@cloudfoundry.org" true "";
     ESignal env_cmd 1].
Proof.
  intros sess.
  assert (H : Forall (fun ev => ev = Tick false) [Tick false; Tick false])
    by (repeat constructor).
  split; [exact H|].
  exact (proj1 (X2_keepalive_loop sess env_cmd [Tick false; Tick false]
                  [Tick false; Stop] H)).
Defined.

Lemma X1_ShellPath_priority_witness :
  let lookPath := fun name : string =>
    if String.eqb name "/bin/sh" then Some "/bin/sh"
    else if String.eqb name "sh" then Some "/usr/bin/sh" else None in
  shell_candidates = ["/bin/bash"; "/usr/local/bin/bash"] ++ "/bin/sh" :: ["bash"; "sh"] /\
  ShellPath lookPath = "/bin/sh".
Proof.
  intros lookPath. split; [reflexivity|].
  apply (proj2 (X1_ShellPath_priority lookPath)
           ["/bin/bash"; "/usr/local/bin/bash"] "/bin/sh" ["bash"; "sh"] "/bin/sh"
           eq_refl).
  - intros x [<-|[<-|[]]]; reflexivity.
  - reflexivity.
Defined.

(** ** Teardown and the stop signal *)

(** X3.  However often [destroy] is invoked, the keepalive stop channel,
    when the session has one, is closed exactly once (closing it twice
    would panic); a session that is already complete closes nothing. *)
Theorem X3_stop_channel_closed_once (sess : session) (n : nat) :
  (complete sess = false -> (1 <= n)%nat ->
   count is_stop_close (snd (destroy_n n sess))
   = match keepaliveStopCh sess with Some _ => 1%nat | None => 0%nat end) /\
  (complete sess = true -> snd (destroy_n n sess) = []).
Proof.
  split.
  - intros Hc Hn. destruct n as [|n]; [lia|]. rewrite destroy_n_first.
    unfold destroy. rewrite Hc. simpl.
    destruct (ptyMaster sess); simpl; destruct (keepaliveStopCh sess); reflexivity.
  - intros Hc. rewrite (destroy_n_when_complete n sess Hc). reflexivity.
Qed.

Lemma X3_stop_channel_closed_once_witness :
  let sess :=
    {| complete := false; keepaliveDuration := 30; keepaliveStopCh := Some 4%nat;
       shellPath := "/bin/sh"; channel := 1%nat; env := 0%nat; command := None;
       allocPty := false; ptyRequest := zero_ptyRequest; ptyMaster := None |} in
  complete sess = false /\ (1 <= 5)%nat /\
  count is_stop_close (snd (destroy_n 5 sess)) = 1%nat.
Proof.
  intros sess.
  assert (Hn : (1 <= 5)%nat) by lia.
  split; [reflexivity|]. split; [exact Hn|].
  exact (proj1 (X3_stop_channel_closed_once sess 5) eq_refl Hn).
Defined.

(** ** Bytes on the wire *)

Lemma byte_val_range (c : ascii) : 0 <= byte_val c < 256.
Proof.
  unfold byte_val. pose proof (N_ascii_bounded c) as H. lia.
Qed.

Lemma byte_val_byte_of (z : Z) : byte_val (byte_of z) = z mod 256.
Proof.
  unfold byte_val, byte_of.
  assert (H : 0 <= z mod 256 < 256) by (apply Z.mod_pos_bound; lia).
  rewrite N_ascii_embedding by lia. lia.
Qed.

Lemma testbit_byte (z k n : Z) : 0 <= k -> 0 <= n ->
  Z.testbit (Z.shiftl (Z.land (Z.shiftr z k) (Z.ones 8)) k) n
  = (Z.testbit z n && Z.leb k n && Z.ltb n (k + 8))%bool.
Proof.
  intros Hk Hn. rewrite Z.shiftl_spec by lia.
  destruct (Z.leb_spec k n).
  - rewrite Z.land_spec, Z.testbit_ones_nonneg, Z.shiftr_spec by lia.
    replace (n - k + k) with n by lia.
    destruct (Z.ltb_spec (n - k) 8), (Z.ltb_spec n (k + 8)); try lia;
      rewrite ?andb_true_r, ?andb_false_r; reflexivity.
  - rewrite Z.testbit_neg_r by lia. rewrite andb_false_r. reflexivity.
Qed.

Lemma uint32_bytes (z : Z) : 0 <= z < 2 ^ 32 ->
  Z.lor (Z.shiftl ((Z.shiftr z 24) mod 256) 24)
    (Z.lor (Z.shiftl ((Z.shiftr z 16) mod 256) 16)
      (Z.lor (Z.shiftl ((Z.shiftr z 8) mod 256) 8) (z mod 256))) = z.
Proof.
  intros Hz. change 256 with (2 ^ 8). rewrite <- !(Z.land_ones _ 8) by lia.
  rewrite <- (Z.shiftl_0_r (Z.land z (Z.ones 8))).
  rewrite <- (Z.shiftr_0_r z) at 4.
  apply Z.bits_inj'. intros n Hn.
  rewrite !Z.lor_spec, !testbit_byte by lia.
  destruct (Z.ltb_spec n 32).
  - destruct (Z.leb_spec 24 n), (Z.leb_spec 16 n), (Z.leb_spec 8 n), (Z.leb_spec 0 n),
      (Z.ltb_spec n (24 + 8)), (Z.ltb_spec n (16 + 8)), (Z.ltb_spec n (8 + 8)),
      (Z.ltb_spec n (0 + 8)); try lia;
      rewrite ?andb_true_r, ?andb_false_r, ?orb_false_r, ?orb_false_l; reflexivity.
  - assert (Z.testbit z n = false) as ->.
    { destruct (Z.eq_dec z 0) as [->|Hne]; [apply Z.bits_0|].
      apply Z.bits_above_log2; [lia|].
      assert (Z.log2 z < 32); [|lia]. apply Z.log2_lt_pow2; lia. }
    reflexivity.
Qed.

Lemma lor_bound (a b n : Z) :
  0 <= n -> 0 <= a < 2 ^ n -> 0 <= b < 2 ^ n -> 0 <= Z.lor a b < 2 ^ n.
Proof.
  intros Hn Ha Hb. split; [apply Z.lor_nonneg; lia|].
  destruct (Z.eq_dec (Z.lor a b) 0) as [->|Hne]; [lia|].
  apply Z.log2_lt_pow2; [pose proof (proj2 (Z.lor_nonneg a b)); lia|].
  rewrite Z.log2_lor by lia.
  destruct (Z.eq_dec a 0) as [->|Ha0], (Z.eq_dec b 0) as [->|Hb0];
    try (rewrite Z.lor_0_l in Hne); try (rewrite Z.lor_0_r in Hne);
    try lia; simpl.
  - rewrite Z.max_r by (apply Z.log2_nonneg). apply Z.log2_lt_pow2; lia.
  - rewrite Z.max_l by (apply Z.log2_nonneg). apply Z.log2_lt_pow2; lia.
  - apply Z.max_lub_lt; apply Z.log2_lt_pow2; lia.
Qed.

Lemma four_bytes_range (a b c d : ascii) :
  0 <= Z.lor (Z.shiftl (byte_val a) 24)
         (Z.lor (Z.shiftl (byte_val b) 16)
           (Z.lor (Z.shiftl (byte_val c) 8) (byte_val d))) < 2 ^ 32.
Proof.
  pose proof (byte_val_range a). pose proof (byte_val_range b).
  pose proof (byte_val_range c). pose proof (byte_val_range d).
  repeat apply lor_bound; try lia; rewrite Z.shiftl_mul_pow2 by lia; lia.
Qed.

(** ** Terminal modes *)

Lemma setTerminalAttributes_record (tcget_ok : list bool) (r : Z * Z)
    (tail : string) :
  valid_record r ->
  setTerminalAttributes tcget_ok (modelist_record r +:+ tail)
  = match tcget_ok with
    | false :: _ => [TcGetAttr]
    | _ => [TcGetAttr; TermAttrSet (fst r) (snd r)]
    end ++ setTerminalAttributes (List.tl tcget_ok) tail.
Proof.
  intros [Hop Hv]. destruct r as [op v]. cbn [fst snd] in *.
  unfold modelist_record, marshalUint32. cbn [fst snd].
  rewrite !append_String. cbn [setTerminalAttributes].
  rewrite !byte_val_byte_of.
  rewrite (Z.mod_small op 256) by lia.
  destruct (Z.eqb_spec op 0); [lia|]. destruct (Z.leb_spec 160 op); [lia|].
  cbn [orb]. rewrite (uint32_bytes v Hv). reflexivity.
Qed.

Lemma string_append_assoc (a b c : string) :
  (a +:+ b) +:+ c = a +:+ (b +:+ c).
Proof.
  induction a as [|x a IH]; [reflexivity|].
  rewrite !append_String, IH. reflexivity.
Qed.

Lemma string_append_nil_r (a : string) : a +:+ "" = a.
Proof.
  induction a as [|x a IH]; [reflexivity|]. rewrite append_String, IH. reflexivity.
Qed.

Lemma setTerminalAttributes_terminator (tcget_ok : list bool) (c : ascii)
    (rest : string) :
  byte_val c = 0 \/ 160 <= byte_val c ->
  setTerminalAttributes tcget_ok (String c rest) = [].
Proof.
  intros Hc. cbn [setTerminalAttributes].
  destruct (Z.eqb_spec (byte_val c) 0); [reflexivity|].
  destruct (Z.leb_spec 160 (byte_val c)); [reflexivity|]. lia.
Qed.

Lemma setTerminalAttributes_range (n : nat) :
  forall (tcget_ok : list bool) (modelist : string),
    (String.length modelist <= n)%nat ->
    forall op v,
      In (TermAttrSet op v) (setTerminalAttributes tcget_ok modelist) ->
      1 <= op <= 159 /\ 0 <= v < 2 ^ 32.
Proof.
  induction n as [|n IH]; intros outs modelist Hlen op v Hin.
  - destruct modelist; simpl in *; [tauto | lia].
  - destruct modelist as [|o rest]; [simpl in Hin; tauto|].
    cbn [setTerminalAttributes] in Hin.
    destruct (Z.eqb_spec (byte_val o) 0); [simpl in Hin; tauto|].
    destruct (Z.leb_spec 160 (byte_val o)); [simpl in Hin; tauto|].
    cbn [orb] in Hin.
    destruct rest as [|a [|b [|c [|d rest']]]]; try (simpl in Hin; tauto).
    apply in_app_or in Hin. destruct Hin as [Hin|Hin].
    + assert (Hset : TermAttrSet (byte_val o)
                       (Z.lor (Z.shiftl (byte_val a) 24)
                          (Z.lor (Z.shiftl (byte_val b) 16)
                             (Z.lor (Z.shiftl (byte_val c) 8) (byte_val d))))
                     = TermAttrSet op v).
      { destruct outs as [|[] ?]; simpl in Hin;
          intuition (try discriminate; auto). }
      injection Hset as <- <-. split; [|apply four_bytes_range].
      pose proof (byte_val_range o). lia.
    + apply (IH (List.tl outs) rest'); [simpl in Hlen; lia | exact Hin].
Qed.

(** X4.  Whatever bytes the peer puts in the mode list and whatever
    fails on the way, [setTerminalAttributes] only ever asks for the
    setter of an opcode between 1 and 159, with a 32-bit value; an empty
    mode list, and one that begins with opcode 0 or an opcode of 160 and
    more, sets nothing and does not even read the attributes. *)
Theorem X4_modelist_opcodes (tcget_ok : list bool) (modelist : string) :
  (forall op v,
     In (TermAttrSet op v) (setTerminalAttributes tcget_ok modelist) ->
     1 <= op <= 159 /\ 0 <= v < 2 ^ 32) /\
  setTerminalAttributes tcget_ok EmptyString = [] /\
  (forall c rest,
     byte_val c = 0 \/ 160 <= byte_val c ->
     setTerminalAttributes tcget_ok (String c rest) = []).
Proof.
  split; [|split].
  - intros op v. apply (setTerminalAttributes_range (String.length modelist)). lia.
  - reflexivity.
  - intros c rest Hc. apply setTerminalAttributes_terminator. exact Hc.
Qed.

Lemma setTerminalAttributes_records (records : list (Z * Z)) (tail : string) :
  Forall valid_record records ->
  setTerminalAttributes [] (encode_modelist records +:+ tail)
  = List.flat_map (fun r => [TcGetAttr; TermAttrSet (fst r) (snd r)]) records
    ++ setTerminalAttributes [] tail.
Proof.
  induction 1 as [|r records Hr _ IH]; [reflexivity|].
  cbn [encode_modelist List.flat_map].
  rewrite string_append_assoc. rewrite (setTerminalAttributes_record [] r _ Hr).
  cbn [List.tl]. rewrite IH, <- app_assoc. reflexivity.
Qed.

(** X5.  A mode list made of whole records with opcodes between 1 and
    159 is applied record by record, in order, each value as it was
    encoded: the attributes are read and the setter of the opcode is
    called with the value.  It makes no difference whether the list then
    simply ends, is followed by a terminating opcode (0, or 160 and more)
    and arbitrary bytes, or is followed by an opcode whose value is cut
    short: nothing after the last whole record is applied. *)
Theorem X5_modelist_applied_in_order (records : list (Z * Z)) :
  Forall valid_record records ->
  let applied :=
    List.flat_map (fun r => [TcGetAttr; TermAttrSet (fst r) (snd r)]) records in
  setTerminalAttributes [] (encode_modelist records) = applied /\
  (forall c rest,
     byte_val c = 0 \/ 160 <= byte_val c ->
     setTerminalAttributes [] (encode_modelist records +:+ String c rest) = applied) /\
  (forall c short,
     (String.length short < 4)%nat ->
     setTerminalAttributes [] (encode_modelist records +:+ String c short) = applied).
Proof.
  intros Hvalid applied. subst applied. split; [|split].
  - rewrite <- (string_append_nil_r (encode_modelist records)) at 1.
    rewrite (setTerminalAttributes_records records "" Hvalid). apply app_nil_r.
  - intros c rest Hc.
    rewrite (setTerminalAttributes_records records _ Hvalid).
    rewrite (setTerminalAttributes_terminator [] c rest Hc). apply app_nil_r.
  - intros c short Hshort.
    rewrite (setTerminalAttributes_records records _ Hvalid).
    assert (Hnil : setTerminalAttributes [] (String c short) = []).
    { cbn [setTerminalAttributes].
      destruct (Z.eqb (byte_val c) 0 || Z.leb 160 (byte_val c))%bool; [reflexivity|].
      destruct short as [|a [|b [|x [|d rest']]]]; try reflexivity.
      simpl in Hshort. lia. }
    rewrite Hnil. apply app_nil_r.
Qed.

Lemma setTerminalAttributes_visits (records : list (Z * Z)) :
  Forall valid_record records ->
  forall tcget_ok : list bool,
    List.filter is_tcgetattr
      (setTerminalAttributes tcget_ok (encode_modelist records))
    = List.map (fun _ => TcGetAttr) records.
Proof.
  induction 1 as [|r records Hr _ IH]; intros outs; [reflexivity|].
  cbn [encode_modelist List.map].
  rewrite (setTerminalAttributes_record outs r _ Hr), List.filter_app, IH.
  destruct outs as [|[] ?]; reflexivity.
Qed.

(** X6.  A failure to read the terminal attributes skips the setter of
    that one record and nothing else: the loop goes on, so the attributes
    are read once for every record of the mode list whatever fails, and
    when the read fails for the first record only, all later records are
    applied as if nothing had happened. *)
Theorem X6_modelist_failure_skips_one (r : Z * Z) (records : list (Z * Z))
    (tcget_ok : list bool) :
  valid_record r -> Forall valid_record records ->
  length (List.filter is_tcgetattr
            (setTerminalAttributes tcget_ok (encode_modelist (r :: records))))
    = S (length records) /\
  setTerminalAttributes [false] (encode_modelist (r :: records))
    = TcGetAttr :: setTerminalAttributes [] (encode_modelist records).
Proof.
  intros Hr Hrs. split.
  - rewrite (setTerminalAttributes_visits (r :: records)) by (constructor; assumption).
    simpl. rewrite length_map. reflexivity.
  - cbn [encode_modelist].
    rewrite (setTerminalAttributes_record [false] r _ Hr). reflexivity.
Qed.

Lemma X5_modelist_applied_in_order_witness :
  Forall valid_record [(1, 3); (53, 1); (128, 38400)] /\
  setTerminalAttributes []
    (encode_modelist [(1, 3); (53, 1); (128, 38400)] +:+ String "000" "junk")
  = [TcGetAttr; TermAttrSet 1 3; TcGetAttr; TermAttrSet 53 1;
     TcGetAttr; TermAttrSet 128 38400].
Proof.
  assert (H : Forall valid_record [(1, 3); (53, 1); (128, 38400)])
    by (repeat constructor; simpl; lia).
  split; [exact H|].
  exact (proj1 (proj2 (X5_modelist_applied_in_order _ H)) "000"%char "junk"
           (or_introl eq_refl)).
Defined.

Lemma X6_modelist_failure_skips_one_witness :
  valid_record (1, 3) /\ Forall valid_record [(53, 1)] /\
  setTerminalAttributes [false] (encode_modelist [(1, 3); (53, 1)])
  = [TcGetAttr; TcGetAttr; TermAttrSet 53 1].
Proof.
  assert (H1 : valid_record (1, 3)) by (split; simpl; lia).
  assert (H2 : Forall valid_record [(53, 1)]) by (repeat constructor; simpl; lia).
  split; [exact H1|]. split; [exact H2|].
  exact (proj2 (X6_modelist_failure_skips_one (1, 3) [(53, 1)] [] H1 H2)).
Defined.

Lemma X4_modelist_opcodes_witness :
  In (TermAttrSet 53 1)
     (setTerminalAttributes [] (encode_modelist [(53, 1)])) /\
  1 <= 53 <= 159.
Proof.
  assert (H : In (TermAttrSet 53 1)
                 (setTerminalAttributes [] (encode_modelist [(53, 1)])))
    by (vm_compute; tauto).
  split; [exact H|].
  exact (proj1 (proj1 (X4_modelist_opcodes [] (encode_modelist [(53, 1)])) 53 1 H)).
Defined.

(** ** The env request *)

Lemma heap_set_other (h : heap) (l l' : loc) (m : gmap string string) :
  l' <> l -> heap_set h l m l' = h l'.
Proof.
  intros Hne. unfold heap_set. destruct (Nat.eqb_spec l' l); [contradiction|reflexivity].
Qed.

Lemma handleEnvironmentRequest_decoded (request : Request) (st : state)
    (m : envMsg) :
  Unmarshal.env (Payload request) = Some m ->
  handleEnvironmentRequest request st
  = (with_heap (heap_set (st_heap st) (env (st_sess st))
                  (<[Name m := Value m]> (st_heap st (env (st_sess st))))) st,
     if WantReply request then [EReply true] else []).
Proof.
  intros Hm. unfold handleEnvironmentRequest, Reply. rewrite Hm.
  destruct (WantReply request); reflexivity.
Qed.

(** X7.  A well-formed env request writes exactly one entry: afterwards
    the session's env map holds the value under the name, every other
    name of that map and every other map is as before, the session record
    is untouched, and the reply, when asked for, is positive. *)
Theorem X7_env_request_writes_one_entry (request : Request) (st : state)
    (m : envMsg) :
  Unmarshal.env (Payload request) = Some m ->
  let st' := fst (handleEnvironmentRequest request st) in
  st_heap st' (env (st_sess st)) !! Name m = Some (Value m) /\
  (forall k, k <> Name m ->
     st_heap st' (env (st_sess st)) !! k = st_heap st (env (st_sess st)) !! k) /\
  (forall l, l <> env (st_sess st) -> st_heap st' l = st_heap st l) /\
  st_sess st' = st_sess st /\ st_waiter st' = st_waiter st /\
  snd (handleEnvironmentRequest request st)
    = (if WantReply request then [EReply true] else []).
Proof.
  intros Hm st'. subst st'. rewrite (handleEnvironmentRequest_decoded _ _ _ Hm).
  cbn [fst snd st_heap st_sess st_waiter with_heap].
  rewrite heap_set_same. repeat split.
  - apply lookup_insert_eq.
  - intros k Hk. apply lookup_insert_ne. congruence.
  - intros l Hl. apply heap_set_other. exact Hl.
Qed.

(** X8.  Env requests compose like assignments: of two requests for the
    same name the later one wins, as if the earlier had never been sent,
    and two requests for different names leave the same maps in either
    order. *)
Theorem X8_env_requests_compose (r1 r2 : Request) (st : state)
    (m1 m2 : envMsg) :
  Unmarshal.env (Payload r1) = Some m1 ->
  Unmarshal.env (Payload r2) = Some m2 ->
  let one_two := fst (handleEnvironmentRequest r2
                        (fst (handleEnvironmentRequest r1 st))) in
  let two_one := fst (handleEnvironmentRequest r1
                        (fst (handleEnvironmentRequest r2 st))) in
  let two := fst (handleEnvironmentRequest r2 st) in
  (Name m1 = Name m2 -> forall l, st_heap one_two l = st_heap two l) /\
  (Name m1 <> Name m2 -> forall l, st_heap one_two l = st_heap two_one l).
Proof.
  intros H1 H2 one_two two_one two. subst one_two two_one two.
  rewrite !(handleEnvironmentRequest_decoded r1 _ _ H1).
  rewrite !(handleEnvironmentRequest_decoded r2 _ _ H2).
  cbn [fst st_heap st_sess with_heap].
  split; intros Hn l; destruct (Nat.eq_dec l (env (st_sess st))) as [->|Hl].
  - rewrite !heap_set_same, Hn. apply insert_insert_eq.
  - rewrite !heap_set_other by exact Hl. reflexivity.
  - rewrite !heap_set_same. apply insert_insert_ne. congruence.
  - rewrite !heap_set_other by exact Hl. reflexivity.
Qed.

Lemma X7_env_request_writes_one_entry_witness :
  Unmarshal.env (Payload (envRequest true "EDITOR" "vi"))
    = Some {| Name := "EDITOR"; Value := "vi" |} /\
  st_heap (fst (handleEnvironmentRequest (envRequest true "EDITOR" "vi") fresh))
    0%nat !! "EDITOR" = Some "vi" /\
  snd (handleEnvironmentRequest (envRequest true "EDITOR" "vi") fresh)
    = [EReply true].
Proof.
  assert (Hm : Unmarshal.env (Payload (envRequest true "EDITOR" "vi"))
               = Some {| Name := "EDITOR"; Value := "vi" |})
    by (vm_compute; reflexivity).
  split; [exact Hm|].
  destruct (X7_env_request_writes_one_entry (envRequest true "EDITOR" "vi")
              fresh _ Hm) as (H1 & _ & _ & _ & _ & H6).
  split; [exact H1 | exact H6].
Defined.

Lemma X8_env_requests_compose_witness :
  Unmarshal.env (Payload (envRequest true "EDITOR" "vi"))
    = Some {| Name := "EDITOR"; Value := "vi" |} /\
  Unmarshal.env (Payload (envRequest false "EDITOR" "ed"))
    = Some {| Name := "EDITOR"; Value := "ed" |} /\
  forall l,
    st_heap (fst (handleEnvironmentRequest (envRequest false "EDITOR" "ed")
                    (fst (handleEnvironmentRequest
                            (envRequest true "EDITOR" "vi") fresh)))) l
    = st_heap (fst (handleEnvironmentRequest
                      (envRequest false "EDITOR" "ed") fresh)) l.
Proof.
  assert (H1 : Unmarshal.env (Payload (envRequest true "EDITOR" "vi"))
               = Some {| Name := "EDITOR"; Value := "vi" |})
    by (vm_compute; reflexivity).
  assert (H2 : Unmarshal.env (Payload (envRequest false "EDITOR" "ed"))
               = Some {| Name := "EDITOR"; Value := "ed" |})
    by (vm_compute; reflexivity).
  split; [exact H1|]. split; [exact H2|].
  exact (proj1 (X8_env_requests_compose _ _ fresh _ _ H1 H2) eq_refl).
Defined.

(** ** The pseudoterminal requests *)

Section Terminal.

Variable order : map_order.
Variable getenv : string -> string.

Lemma handlePtyRequest_decoded (request : Request) (st : state)
    (m : ptyRequestMsg) :
  Unmarshal.ptyRequest (Payload request) = Some m ->
  handlePtyRequest request st
  = (with_heap (heap_set (st_heap st) (env (st_sess st))
                  (<["TERM" := Term m]> (st_heap st (env (st_sess st)))))
       (with_sess (set_pty true m (st_sess st)) st),
     if WantReply request then [EReply true] else []).
Proof.
  intros Hm. unfold handlePtyRequest, Reply. rewrite Hm.
  destruct (WantReply request); reflexivity.
Qed.

(** X9.  A well-formed pty-req switches the session to a pseudoterminal
    launch, stores the parameters as sent, and writes the terminal type
    into the env map as TERM, replacing whatever TERM an env request had
    set; so a shell or exec that follows on a session without command
    gets TERM=<term> in its environment vector.  The command, the
    completion flag and the PTY master are not touched. *)
Theorem X9_pty_request (request : Request) (st : state) (m : ptyRequestMsg) :
  Unmarshal.ptyRequest (Payload request) = Some m ->
  let st' := fst (handlePtyRequest request st) in
  allocPty (st_sess st') = true /\
  ptyRequest (st_sess st') = m /\
  st_heap st' (env (st_sess st')) !! "TERM" = Some (Term m) /\
  (forall k, k <> "TERM" ->
     st_heap st' (env (st_sess st')) !! k = st_heap st (env (st_sess st)) !! k) /\
  command (st_sess st') = command (st_sess st) /\
  complete (st_sess st') = complete (st_sess st) /\
  ptyMaster (st_sess st') = ptyMaster (st_sess st) /\
  (forall o req args cmd,
     command (st_sess (fst (executeShell order getenv o req args st'))) = Some cmd ->
     command (st_sess st) = None ->
     In (entry "TERM" (Term m)) (Env cmd)).
Proof.
  intros Hm st'. subst st'. rewrite (handlePtyRequest_decoded _ _ _ Hm).
  cbn [fst st_heap st_sess with_heap with_sess].
  assert (Hterm : heap_set (st_heap st) (env (st_sess st))
                    (<["TERM" := Term m]> (st_heap st (env (st_sess st))))
                    (env (set_pty true m (st_sess st))) !! "TERM" = Some (Term m)).
  { cbn [env set_pty]. rewrite heap_set_same. apply lookup_insert_eq. }
  repeat split; try exact Hterm.
  - intros k Hk. cbn [env set_pty]. rewrite heap_set_same.
    apply lookup_insert_ne. congruence.
  - intros o req args cmd Hcmd Hnone.
    rewrite executeShell_launched in Hcmd by exact Hnone.
    cbn [st_heap st_sess with_heap with_sess] in Hcmd.
    set (st1 := with_heap _ _) in Hcmd.
    match type of Hcmd with
    | context [launch o ?s ?c] =>
        pose proof (launch_session o s c) as (Hl & _);
        pose proof (destroy_spec (fst (fst (launch o s c)))) as (Hd & _);
        destruct (snd (launch o s c));
        cbn [fst st_sess with_sess with_waiter] in Hcmd;
        rewrite ?Hd, Hl in Hcmd; cbn [command set_command] in Hcmd;
        injection Hcmd as <-
    end;
    cbn [Env new_command]; apply environment_entry; try discriminate; exact Hterm.
Qed.

(** X10.  A well-formed window-change request is always answered
    positively and changes at most the stored columns and rows: without a
    preceding pty-req the session is left exactly as it was; with one,
    columns and rows are replaced and the terminal type, the pixel sizes
    and the mode list stay.  The window size of the PTY master is set if
    and only if a master is held, and then to the stored columns and rows
    cut down to 16 bits. *)
Theorem X10_window_change (request : Request) (st : state)
    (m : windowChangeMsg) :
  Unmarshal.windowChange (Payload request) = Some m ->
  let st' := fst (handleWindowChangeRequest request st) in
  let e := snd (handleWindowChangeRequest request st) in
  (allocPty (st_sess st) = false -> st' = st) /\
  (allocPty (st_sess st) = true ->
     st_sess st'
     = set_pty true (set_size (wc_Columns m) (wc_Rows m) (ptyRequest (st_sess st)))
         (st_sess st) /\
     Term (ptyRequest (st_sess st')) = Term (ptyRequest (st_sess st)) /\
     Width (ptyRequest (st_sess st')) = Width (ptyRequest (st_sess st)) /\
     Height (ptyRequest (st_sess st')) = Height (ptyRequest (st_sess st)) /\
     Modelist (ptyRequest (st_sess st')) = Modelist (ptyRequest (st_sess st))) /\
  st_heap st' = st_heap st /\
  e = match ptyMaster (st_sess st) with
      | Some f => [ESetWinsize f (Columns (ptyRequest (st_sess st')) mod 2 ^ 16)
                                 (Rows (ptyRequest (st_sess st')) mod 2 ^ 16)]
      | None => []
      end ++ (if WantReply request then [EReply true] else []) /\
  (forall f w h, In (ESetWinsize f w h) e ->
     0 <= w < 65536 /\ 0 <= h < 65536).
Proof.
  intros Hm st' e. subst st' e.
  unfold handleWindowChangeRequest, Reply, setWindowSize, to_uint16. rewrite Hm.
  destruct st as [h sess w]. cbn [st_sess st_heap st_waiter with_sess fst snd].
  destruct (allocPty sess) eqn:Ha; cbn [ptyMaster set_pty ptyRequest];
    (split; [intros Hf; try discriminate Hf; try reflexivity|]);
    (split; [intros Ht; try discriminate Ht; try (repeat split; congruence)|]);
    (split; [reflexivity|]);
    (split; [destruct (ptyMaster sess), (WantReply request); reflexivity|]);
    intros f x y Hin;
    destruct (ptyMaster sess), (WantReply request); simpl in Hin;
    intuition (try discriminate);
    match goal with
    | H : ESetWinsize _ _ _ = ESetWinsize _ _ _ |- _ => injection H as _ <- <-
    end;
    apply Z.mod_pos_bound; lia.
Qed.

End Terminal.

Lemma X9_pty_request_witness :
  Unmarshal.ptyRequest (Payload (ptyRequestOf true "xterm" 80 24))
    = Some {| Term := "xterm"; Columns := 80; Rows := 24; Width := 0;
              Height := 0; Modelist := "" |} /\
  allocPty (st_sess (fst (handlePtyRequest (ptyRequestOf true "xterm" 80 24) fresh)))
    = true /\
  st_heap (fst (handlePtyRequest (ptyRequestOf true "xterm" 80 24) fresh)) 0%nat
    !! "TERM" = Some "xterm".
Proof.
  assert (Hm : Unmarshal.ptyRequest (Payload (ptyRequestOf true "xterm" 80 24))
               = Some {| Term := "xterm"; Columns := 80; Rows := 24; Width := 0;
                         Height := 0; Modelist := "" |})
    by (vm_compute; reflexivity).
  split; [exact Hm|].
  destruct (X9_pty_request canonical_order daemon_env
              (ptyRequestOf true "xterm" 80 24) fresh _ Hm) as (H1 & _ & H3 & _).
  split; [exact H1 | exact H3].
Defined.

Lemma X10_window_change_witness :
  let st := with_sess (set_ptyMaster (Some 7%nat)
                         (set_pty true zero_ptyRequest (st_sess fresh))) fresh in
  Unmarshal.windowChange (Payload (windowChangeRequest true 65616 40))
    = Some {| wc_Columns := 65616; wc_Rows := 40; wc_WidthPx := 0;
              wc_HeightPx := 0 |} /\
  snd (handleWindowChangeRequest (windowChangeRequest true 65616 40) st)
    = [ESetWinsize 7%nat 80 40; EReply true].
Proof.
  intros st.
  assert (Hm : Unmarshal.windowChange (Payload (windowChangeRequest true 65616 40))
               = Some {| wc_Columns := 65616; wc_Rows := 40; wc_WidthPx := 0;
                         wc_HeightPx := 0 |})
    by (vm_compute; reflexivity).
  split; [exact Hm|].
  destruct (X10_window_change (windowChangeRequest true 65616 40) st _ Hm)
    as (_ & _ & _ & He & _).
  exact He.
Defined.

(** ** Launches that fail, and launches after the copier *)

Section Launches.

Variable order : map_order.
Variable getenv : string -> string.

Lemma launch_ok_spec (o : outcome) (sess : session) (cmd : Cmd) :
  launch_fails o sess = false ->
  snd (launch o sess cmd) = None /\
  count is_child_start (snd (fst (launch o sess cmd))) = 1%nat.
Proof.
  unfold launch_fails, launch, runWithPty, run, setWindowSize, count.
  destruct (allocPty sess), (pty_open o), (stdin_pipe_fails o), (start_fails o);
    simpl; intros H; try discriminate H; split; reflexivity.
Qed.

(** X11.  A launch that fails uses up the session's one command: the
    command handle stays set and the session is torn down, so every shell
    or exec launch attempted afterwards is rejected with a negative reply
    and changes nothing; the failed request itself is answered positively
    before the failure shows. *)
Theorem X11_failed_launch_is_final (o : outcome) (request : Request)
    (args : list string) (st : state) :
  command (st_sess st) = None -> launch_fails o (st_sess st) = true ->
  let st' := fst (executeShell order getenv o request args st) in
  command (st_sess st')
    = Some (new_command order getenv (st_heap st) (st_sess st) args) /\
  complete (st_sess st') = true /\
  st_waiter st' = st_waiter st /\
  (WantReply request = true ->
   exists rest,
     snd (executeShell order getenv o request args st) = EReply true :: rest) /\
  (forall o' request' args',
     executeShell order getenv o' request' args' st'
     = (st', if WantReply request' then [EReply false] else [])).
Proof.
  intros Hc Hf st'.
  assert (Hcmd : command (st_sess st')
                 = Some (new_command order getenv (st_heap st) (st_sess st) args)).
  { subst st'. rewrite (executeShell_launched order getenv o request args st Hc).
    destruct (launch_fails_spec o
                (set_command (Some (new_command order getenv (st_heap st) (st_sess st) args))
                   (st_sess st))
                (new_command order getenv (st_heap st) (st_sess st) args) Hf)
      as [-> ->].
    cbn [fst st_sess with_sess].
    rewrite (proj1 (destroy_spec _)). reflexivity. }
  split; [exact Hcmd|]. split; [|split; [|split]].
  - subst st'. rewrite (executeShell_launched order getenv o request args st Hc).
    destruct (launch_fails_spec o
                (set_command (Some (new_command order getenv (st_heap st) (st_sess st) args))
                   (st_sess st))
                (new_command order getenv (st_heap st) (st_sess st) args) Hf)
      as [-> ->].
    cbn [fst st_sess with_sess].
    apply (proj1 (proj2 (destroy_spec _))).
  - subst st'. rewrite (executeShell_launched order getenv o request args st Hc).
    destruct (launch_fails_spec o
                (set_command (Some (new_command order getenv (st_heap st) (st_sess st) args))
                   (st_sess st))
                (new_command order getenv (st_heap st) (st_sess st) args) Hf)
      as [-> _].
    reflexivity.
  - intros Hw.
    destruct (executeShell_created order getenv o request args st Hc) as [rest Hrest].
    rewrite Hw in Hrest. exists rest. exact Hrest.
  - intros o' request' args'.
    apply (executeShell_rejected order getenv o' request' args' st' _ Hcmd).
Qed.

(** X12.  Serving a command through the copier tears the session down
    but does not set the command handle, and [executeShell] does not look
    at the completion flag: on a session without command, a shell launch
    that follows the copy still creates a command and, unless the launch
    fails, starts exactly one child and leaves its exit to be awaited. *)
Theorem X12_launch_after_copy (o o' : outcome) (copied : string)
    (request request' : Request) (args : list string) (st : state) :
  command (st_sess st) = None ->
  let st1 := fst (executeSCP o copied request st) in
  complete (st_sess st1) = true /\
  command (st_sess st1) = None /\
  (launch_fails o' (st_sess st1) = false ->
   st_waiter (fst (executeShell order getenv o' request' args st1))
     = Some (new_command order getenv (st_heap st1) (st_sess st1) args) /\
   count is_child_start
     (snd (executeShell order getenv o' request' args st1)) = 1%nat).
Proof.
  intros Hc st1.
  assert (H1 : complete (st_sess st1) = true).
  { subst st1. rewrite executeSCP_effects. cbn [fst st_sess with_sess].
    apply (proj1 (proj2 (destroy_spec _))). }
  assert (H2 : command (st_sess st1) = None).
  { subst st1. rewrite executeSCP_effects. cbn [fst st_sess with_sess].
    rewrite (proj1 (destroy_spec _)). exact Hc. }
  split; [exact H1|]. split; [exact H2|].
  intros Hok.
  rewrite (executeShell_launched order getenv o' request' args st1 H2).
  destruct (launch_ok_spec o'
              (set_command
                 (Some (new_command order getenv (st_heap st1) (st_sess st1) args))
                 (st_sess st1))
              (new_command order getenv (st_heap st1) (st_sess st1) args) Hok)
    as [Hnone Hone].
  rewrite Hnone. cbn [fst snd st_waiter with_waiter].
  split; [reflexivity|].
  rewrite count_app, Hone, reply_spec by reflexivity. reflexivity.
Qed.

(** X13.  Without a pseudoterminal, when the stdin pipe of the command
    cannot be created the child is never started: the request is still
    answered positively, then exit-status 255 is sent and the session is
    torn down, and no goroutine is left waiting. *)
Theorem X13_no_pipe_no_child (o : outcome) (request : Request)
    (args : list string) (st : state) :
  command (st_sess st) = None -> allocPty (st_sess st) = false ->
  stdin_pipe_fails o = true ->
  let cmd := new_command order getenv (st_heap st) (st_sess st) args in
  let sess1 := set_command (Some cmd) (st_sess st) in
  executeShell order getenv o request args st
  = (with_sess (fst (destroy sess1)) st,
     (if WantReply request then [EReply true] else [])
     ++ [EStdinPipe cmd]
     ++ [ESendRequest (channel (st_sess st)) "exit-status" false (marshalUint32 255)]
     ++ snd (destroy sess1)) /\
  count is_child_start (snd (executeShell order getenv o request args st)) = 0%nat /\
  st_waiter (fst (executeShell order getenv o request args st)) = st_waiter st.
Proof.
  intros Hc Ha Hp cmd sess1.
  assert (Heq : executeShell order getenv o request args st
    = (with_sess (fst (destroy sess1)) st,
       (if WantReply request then [EReply true] else [])
       ++ [EStdinPipe cmd]
       ++ [ESendRequest (channel (st_sess st)) "exit-status" false (marshalUint32 255)]
       ++ snd (destroy sess1))).
  { rewrite (executeShell_launched order getenv o request args st Hc).
    fold cmd sess1. unfold launch, run.
    replace (allocPty sess1) with false by (symmetry; exact Ha).
    rewrite Hp. reflexivity. }
  split; [exact Heq|]. rewrite Heq. cbn [fst snd st_waiter with_sess].
  split; [|reflexivity].
  rewrite !count_app, reply_spec by reflexivity.
  destruct (destroy_spec sess1) as (_ & _ & _ & _ & _ & _ & _ & _ & _ & ->).
  reflexivity.
Qed.

End Launches.

Lemma X11_failed_launch_is_final_witness :
  command (st_sess fresh) = None /\
  launch_fails start_failing (st_sess fresh) = true /\
  complete (st_sess (fst (executeShell canonical_order daemon_env start_failing
                            (shellRequest true) [] fresh))) = true /\
  executeShell canonical_order daemon_env all_ok (shellRequest true) []
    (fst (executeShell canonical_order daemon_env start_failing
            (shellRequest true) [] fresh))
  = (fst (executeShell canonical_order daemon_env start_failing
            (shellRequest true) [] fresh), [EReply false]).
Proof.
  split; [reflexivity|]. split; [reflexivity|].
  destruct (X11_failed_launch_is_final canonical_order daemon_env start_failing
              (shellRequest true) [] fresh eq_refl eq_refl)
    as (_ & H2 & _ & _ & H5).
  split; [exact H2|].
  exact (H5 all_ok (shellRequest true) []).
Defined.

Lemma X12_launch_after_copy_witness :
  command (st_sess fresh) = None /\
  launch_fails all_ok
    (st_sess (fst (executeSCP all_ok "scp -t /tmp" (execRequest true "scp -t /tmp")
                     fresh))) = false /\
  count is_child_start
    (snd (executeShell canonical_order daemon_env all_ok (shellRequest true) []
            (fst (executeSCP all_ok "scp -t /tmp" (execRequest true "scp -t /tmp")
                    fresh)))) = 1%nat.
Proof.
  split; [reflexivity|]. split; [reflexivity|].
  destruct (X12_launch_after_copy canonical_order daemon_env all_ok all_ok
              "scp -t /tmp" (execRequest true "scp -t /tmp") (shellRequest true)
              [] fresh eq_refl) as (_ & _ & H3).
  exact (proj2 (H3 eq_refl)).
Defined.

Lemma X13_no_pipe_no_child_witness :
  let failing := {| stdin_pipe_fails := true; start_fails := false;
                    pty_open := None; scp_new_fails := false;
                    scp_copy_fails := false |} in
  command (st_sess fresh) = None /\ allocPty (st_sess fresh) = false /\
  stdin_pipe_fails failing = true /\
  count is_child_start
    (snd (executeShell canonical_order daemon_env failing (shellRequest true) []
            fresh)) = 0%nat.
Proof.
  intros failing. split; [reflexivity|]. split; [reflexivity|].
  split; [reflexivity|].
  exact (proj1 (proj2 (X13_no_pipe_no_child canonical_order daemon_env failing
                         (shellRequest true) [] fresh eq_refl eq_refl eq_refl))).
Defined.

(** ** A wait status that is no exit *)

(** X14.  An exit error whose wait status says neither exited nor
    signaled (the low seven bits are all set: a stopped child) is
    reported as exit-status 4294967295, the 32-bit image of the exit
    status -1, and not as 255. *)
Theorem X14_stopped_status (sess : session) (w : Z) :
  Z.land w 127 = 127 ->
  WaitStatus.Exited w = false /\ WaitStatus.Signaled w = false /\
  WaitStatus.ExitStatus w = -1 /\
  sendExitMessage sess (Some (ExitError (Some w)))
  = [ESendRequest (channel sess) "exit-status" false (marshalUint32 4294967295)].
Proof.
  intros Hw.
  assert (He : WaitStatus.Exited w = false).
  { unfold WaitStatus.Exited, WaitStatus.mask, WaitStatus.exited. rewrite Hw.
    reflexivity. }
  assert (Hs : WaitStatus.Signaled w = false).
  { unfold WaitStatus.Signaled, WaitStatus.mask, WaitStatus.stopped. rewrite Hw.
    reflexivity. }
  assert (Hx : WaitStatus.ExitStatus w = -1).
  { unfold WaitStatus.ExitStatus. rewrite He. reflexivity. }
  split; [exact He|]. split; [exact Hs|]. split; [exact Hx|].
  cbn [sendExitMessage]. rewrite Hs, Hx. reflexivity.
Qed.

Lemma X14_stopped_status_witness :
  Z.land 4991 127 = 127 /\
  sendExitMessage (st_sess fresh) (Some (ExitError (Some 4991)))
  = [ESendRequest 1%nat "exit-status" false (marshalUint32 4294967295)].
Proof.
  split; [reflexivity|].
  exact (proj2 (proj2 (proj2 (X14_stopped_status (st_sess fresh) 4991 eq_refl)))).
Defined.

(** ** The order of the environment vector *)

Lemma filter_Permutation_bool {A} (f : A -> bool) (l1 l2 : list A) :
  l1 ≡ₚ l2 -> List.filter f l1 ≡ₚ List.filter f l2.
Proof.
  induction 1 as [|x l1 l2 _ IH|x y l|l1 l2 l3 _ IH1 _ IH2]; simpl.
  - reflexivity.
  - destruct (f x); [constructor|]; exact IH.
  - destruct (f x), (f y); try reflexivity. constructor.
  - etransitivity; eassumption.
Qed.

Lemma NoDup_fst_filter {A B} (f : A * B -> bool) (l : list (A * B)) :
  NoDup (List.map fst l) -> NoDup (List.map fst (List.filter f l)).
Proof.
  induction l as [|x l IH]; simpl; intros H; [constructor|].
  apply NoDup_cons in H as [Hx Hl].
  destruct (f x); [|apply IH; exact Hl].
  simpl. apply NoDup_cons. split; [|apply IH; exact Hl].
  intros Hin. apply Hx.
  apply list_elem_of_In in Hin. apply list_elem_of_In.
  apply in_map_iff in Hin as (y & Hy & Hin). apply in_map_iff.
  exists y. split; [exact Hy|]. apply List.filter_In in Hin. tauto.
Qed.

(** X15.  The order in which Go walks the env map only permutes the
    middle of the environment vector: for any two iteration orders the
    two vectors are permutations of each other, both begin with PATH and
    LANG and end with HOME and USER, and the part in between holds
    exactly one entry for each key of the map other than HOME and USER,
    no key twice. *)
Theorem X15_environment_order (o1 o2 : map_order) (getenv : string -> string)
    (h : heap) (sess : session) :
  environment o1 getenv h sess ≡ₚ environment o2 getenv h sess /\
  length (environment o1 getenv h sess) = length (environment o2 getenv h sess) /\
  (exists middle,
     environment o1 getenv h sess
     = ["PATH=/bin:/usr/bin"; "LANG=en_US.UTF8"] ++ middle
       ++ [entry "HOME" (getenv "HOME"); entry "USER" (getenv "USER")] /\
     middle = List.map (fun kv => entry (fst kv) (snd kv))
                (peer_entries o1 (h (env sess)))) /\
  NoDup (List.map fst (peer_entries o1 (h (env sess)))) /\
  (forall k v, In (k, v) (peer_entries o1 (h (env sess)))
               <-> In (k, v) (peer_entries o2 (h (env sess)))).
Proof.
  assert (Hperm : peer_entries o1 (h (env sess)) ≡ₚ peer_entries o2 (h (env sess))).
  { unfold peer_entries. apply filter_Permutation_bool.
    rewrite (range_perm o1), (range_perm o2). reflexivity. }
  assert (Henv : environment o1 getenv h sess ≡ₚ environment o2 getenv h sess).
  { rewrite !environment_shape. do 2 constructor.
    apply Permutation_app_tail. apply Permutation_map. exact Hperm. }
  split; [exact Henv|]. split; [apply Permutation_length; exact Henv|].
  split; [|split].
  - eexists. split; [apply environment_shape | reflexivity].
  - unfold peer_entries. apply NoDup_fst_filter.
    rewrite (range_perm o1). apply NoDup_fst_map_to_list.
  - intros k v. rewrite !(peer_entries_spec _ getenv). reflexivity.
Qed.

(** ** What no sequence of requests can do *)

Section Frames.

Variable order : map_order.
Variable getenv : string -> string.

Lemma no_signal_in (st : state) (e : list effect) :
  count is_signal e = 0%nat ->
  forall x, In x e -> is_signal x = true ->
    exists c sig, x = ESignal c sig /\ command (st_sess st) = Some c.
Proof.
  intros H x Hx Hs. rewrite (count_zero_none _ _ H x Hx) in Hs. discriminate.
Qed.

Lemma launch_misc (o : outcome) (sess : session) (cmd : Cmd) :
  count is_any_channel_close (snd (fst (launch o sess cmd))) = 0%nat /\
  count is_signal (snd (fst (launch o sess cmd))) = 0%nat.
Proof.
  unfold launch, runWithPty, run, setWindowSize, count.
  destruct (allocPty sess), (pty_open o), (stdin_pipe_fails o), (start_fails o);
    split; reflexivity.
Qed.

Lemma destroy_misc (sess : session) :
  (count is_any_channel_close (snd (destroy sess))
   + (if complete sess then 1 else 0) = 1)%nat /\
  count is_signal (snd (destroy sess)) = 0%nat.
Proof.
  unfold destroy, count. destruct (complete sess); [split; reflexivity|].
  simpl. destruct (ptyMaster sess); simpl; destruct (keepaliveStopCh sess);
    split; reflexivity.
Qed.

Lemma send_misc (sess : session) (err : option error) :
  count is_any_channel_close (sendExitMessage sess err) = 0%nat /\
  count is_signal (sendExitMessage sess err) = 0%nat.
Proof.
  unfold sendExitMessage, count.
  destruct err as [[[w|]|]|]; simpl; try tauto.
  destruct (WaitStatus.Signaled w); simpl; tauto.
Qed.

Lemma sent_with_sess (s : session) (st : state) :
  sent (with_sess s st) = (if complete s then 1 else 0)%nat.
Proof. reflexivity. Qed.

Lemma frame_teardown (st : state) (sess : session) (e0 : list effect)
    (w : option Cmd) :
  env sess = env (st_sess st) -> channel sess = channel (st_sess st) ->
  shellPath sess = shellPath (st_sess st) ->
  allocPty sess = allocPty (st_sess st) ->
  complete sess = complete (st_sess st) ->
  count is_any_channel_close e0 = 0%nat -> count is_signal e0 = 0%nat ->
  step_frame st (with_waiter w (with_sess (fst (destroy sess)) st))
    (e0 ++ snd (destroy sess)).
Proof.
  intros He Hch Hsh Ha Hc H0 Hs0.
  destruct (destroy_spec sess) as (_ & Hd2 & Hd3 & Hd4 & Hd5 & Hd6 & _).
  destruct (destroy_misc sess) as [Hm1 Hm2].
  unfold step_frame. cbn [st_sess st_heap with_sess with_waiter].
  repeat split; try congruence; auto.
  - unfold sent. cbn [st_sess with_sess with_waiter].
    rewrite count_app, H0, Hd2, <- Hc. simpl. exact Hm1.
  - apply no_signal_in. rewrite count_app, Hs0, Hm2. reflexivity.
Qed.

Lemma frame_quiet_session (st : state) (sess : session) (e : list effect)
    (w : option Cmd) :
  env sess = env (st_sess st) -> channel sess = channel (st_sess st) ->
  shellPath sess = shellPath (st_sess st) ->
  (allocPty (st_sess st) = true -> allocPty sess = true) ->
  complete sess = complete (st_sess st) ->
  count is_any_channel_close e = 0%nat -> count is_signal e = 0%nat ->
  step_frame st (with_waiter w (with_sess sess st)) e.
Proof.
  intros He Hch Hsh Ha Hc H0 Hs0.
  unfold step_frame. cbn [st_sess st_heap with_sess with_waiter].
  repeat split; try congruence; auto.
  - unfold sent. cbn [st_sess with_sess with_waiter]. rewrite H0, Hc. reflexivity.
  - apply no_signal_in. exact Hs0.
Qed.

Lemma with_same (st : state) :
  with_waiter (st_waiter st) (with_sess (st_sess st) st) = st.
Proof. destruct st. reflexivity. Qed.

Lemma frame_nothing (st : state) (e : list effect) :
  count is_any_channel_close e = 0%nat -> count is_signal e = 0%nat ->
  step_frame st st e.
Proof.
  intros H0 Hs0. rewrite <- (with_same st) at 2.
  apply frame_quiet_session; auto.
Qed.

Lemma executeShell_frame (o : outcome) (request : Request)
    (args : list string) (st : state) :
  step_frame st (fst (executeShell order getenv o request args st))
    (snd (executeShell order getenv o request args st)).
Proof.
  destruct (command (st_sess st)) as [c|] eqn:Hc.
  - rewrite (executeShell_rejected order getenv o request args st c Hc).
    apply frame_nothing; apply reply_spec; reflexivity.
  - rewrite (executeShell_launched order getenv o request args st Hc).
    set (cmd := new_command order getenv _ _ _). set (sess1 := set_command _ _).
    destruct (launch_session o sess1 cmd) as (_ & L2 & L3 & L4 & L5 & L6 & _).
    destruct (launch_misc o sess1 cmd) as [M1 M2].
    destruct (snd (launch o sess1 cmd)) as [err|]; cbn [fst snd].
    + destruct (send_misc (fst (fst (launch o sess1 cmd))) (Some err)) as [S1 S2].
      rewrite <- (with_same (with_sess _ st)).
      cbn [st_waiter st_sess with_sess].
      replace (with_sess (fst (destroy (fst (fst (launch o sess1 cmd)))))
                 (with_sess (fst (destroy (fst (fst (launch o sess1 cmd))))) st))
        with (with_sess (fst (destroy (fst (fst (launch o sess1 cmd))))) st)
        by reflexivity.
      rewrite !app_assoc.
      apply frame_teardown; try assumption;
        rewrite ?count_app, ?M1, ?M2, ?S1, ?S2, ?reply_spec by reflexivity;
        reflexivity.
    + apply frame_quiet_session; try assumption;
        try (intros _; rewrite L6; assumption);
        rewrite ?count_app, ?M1, ?M2, ?reply_spec by reflexivity; try reflexivity.
      intros Ha. rewrite L6. exact Ha.
Qed.

Lemma executeSCP_frame (o : outcome) (cmd : string) (request : Request)
    (st : state) :
  step_frame st (fst (executeSCP o cmd request st))
    (snd (executeSCP o cmd request st)).
Proof.
  rewrite executeSCP_effects. cbn [fst snd].
  rewrite <- (with_same (with_sess _ st)).
  cbn [st_waiter st_sess with_sess].
  replace (with_sess (fst (destroy (st_sess st)))
             (with_sess (fst (destroy (st_sess st))) st))
    with (with_sess (fst (destroy (st_sess st))) st) by reflexivity.
  rewrite !app_assoc. apply frame_teardown; try reflexivity;
    rewrite !count_app, reply_spec by reflexivity;
    destruct (scp_new_fails o); reflexivity.
Qed.

Lemma waiterReturns_frame (err : option error) (st : state) :
  step_frame st (fst (waiterReturns err st)) (snd (waiterReturns err st)).
Proof.
  unfold waiterReturns. destruct (st_waiter st) as [c|].
  - destruct (destroy (st_sess st)) as [s' e2] eqn:Hd. cbn [fst snd].
    replace s' with (fst (destroy (st_sess st))) by (rewrite Hd; reflexivity).
    replace e2 with (snd (destroy (st_sess st))) by (rewrite Hd; reflexivity).
    apply frame_teardown; try reflexivity; apply send_misc.
  - apply frame_nothing; reflexivity.
Qed.

Lemma insert_keeps_keys (m : gmap string string) (n v k : string) :
  is_Some (m !! k) -> is_Some (<[n := v]> m !! k).
Proof.
  intros H. destruct (decide (n = k)) as [->|Hne].
  - rewrite lookup_insert_eq. eauto.
  - rewrite lookup_insert_ne by exact Hne. exact H.
Qed.

Lemma frame_write (st : state) (sess : session) (n v : string) (e : list effect) :
  env sess = env (st_sess st) -> channel sess = channel (st_sess st) ->
  shellPath sess = shellPath (st_sess st) ->
  (allocPty (st_sess st) = true -> allocPty sess = true) ->
  complete sess = complete (st_sess st) ->
  count is_any_channel_close e = 0%nat -> count is_signal e = 0%nat ->
  step_frame st
    (with_heap (heap_set (st_heap st) (env sess)
                  (<[n := v]> (st_heap st (env sess))))
       (with_sess sess st)) e.
Proof.
  intros He Hch Hsh Ha Hc H0 Hs0.
  unfold step_frame. cbn [st_sess st_heap with_sess with_heap].
  rewrite He. repeat split; try congruence; auto.
  - intros l Hl. apply heap_set_other. exact Hl.
  - intros k Hk. rewrite heap_set_same. apply insert_keeps_keys. exact Hk.
  - unfold sent. cbn [st_sess with_sess with_heap]. rewrite H0, Hc. reflexivity.
  - apply no_signal_in. exact Hs0.
Qed.

Lemma step_frame_all (st : state) (ev : event) :
  step_frame st (fst (step order getenv st ev)) (snd (step order getenv st ev)).
Proof.
  destruct ev as [request o | err]; [|apply waiterReturns_frame].
  cbn [step]. unfold serviceRequest.
  destruct (String.eqb (Type_ request) "env").
  { unfold handleEnvironmentRequest, Reply.
    destruct (Unmarshal.env (Payload request)) as [m|].
    - cbn [fst snd].
      replace (with_heap _ st)
        with (with_heap (heap_set (st_heap st) (env (st_sess st))
                (<[Name m := Value m]> (st_heap st (env (st_sess st)))))
                (with_sess (st_sess st) st)) by (destruct st; reflexivity).
      apply frame_write; auto; destruct (WantReply request); reflexivity.
    - apply frame_nothing; destruct (WantReply request); reflexivity. }
  destruct (String.eqb (Type_ request) "signal").
  { unfold handleSignalRequest, Reply.
    destruct (Unmarshal.signal (Payload request)) as [m|]; cbn [fst snd].
    - rewrite <- (with_same st) at 2.
      unfold step_frame. cbn [st_sess st_heap with_sess with_waiter].
      repeat split; auto.
      + unfold sent. destruct (command (st_sess st)), (WantReply request); reflexivity.
      + intros x Hx Hs. destruct (command (st_sess st)) as [c|];
          destruct (WantReply request); simpl in Hx;
          intuition (subst; try discriminate; eauto).
    - apply frame_nothing; destruct (WantReply request); reflexivity. }
  destruct (String.eqb (Type_ request) "pty-req").
  { unfold handlePtyRequest, Reply.
    destruct (Unmarshal.ptyRequest (Payload request)) as [m|]; cbn [fst snd].
    - apply frame_write; auto; destruct (WantReply request); reflexivity.
    - apply frame_nothing; destruct (WantReply request); reflexivity. }
  destruct (String.eqb (Type_ request) "window-change").
  { unfold handleWindowChangeRequest, Reply, setWindowSize.
    destruct (Unmarshal.windowChange (Payload request)) as [m|]; cbn [fst snd].
    - rewrite <- (with_same (with_sess _ st)).
      cbn [st_waiter st_sess with_sess].
      match goal with
      | |- step_frame _ (with_waiter _ (with_sess ?s (with_sess ?s st))) _ =>
          replace (with_sess s (with_sess s st)) with (with_sess s st) by reflexivity
      end.
      apply frame_quiet_session;
        destruct (allocPty (st_sess st)) eqn:Ha; cbn [set_pty allocPty];
        auto; rewrite ?Ha; auto;
        cbn [ptyMaster set_pty];
        destruct (ptyMaster (st_sess st)), (WantReply request); reflexivity.
    - apply frame_nothing; destruct (WantReply request); reflexivity. }
  destruct (String.eqb (Type_ request) "exec").
  { unfold handleExecRequest.
    destruct (Unmarshal.exec (Payload request)) as [m|].
    - destruct (scpRegex_MatchString (Command m)).
      + apply executeSCP_frame.
      + apply executeShell_frame.
    - apply frame_nothing; unfold Reply; destruct (WantReply request); reflexivity. }
  destruct (String.eqb (Type_ request) "shell").
  { apply executeShell_frame. }
  apply frame_nothing; unfold Reply; destruct (WantReply request); reflexivity.
Qed.


Lemma run_frame (evs : list event) (st : state) :
  let st' := fst (run_events order getenv st evs) in
  let tr := snd (run_events order getenv st evs) in
  env (st_sess st') = env (st_sess st) /\
  channel (st_sess st') = channel (st_sess st) /\
  shellPath (st_sess st') = shellPath (st_sess st) /\
  (allocPty (st_sess st) = true -> allocPty (st_sess st') = true) /\
  (forall l, l <> env (st_sess st) -> st_heap st' l = st_heap st l) /\
  (forall k, is_Some (st_heap st (env (st_sess st)) !! k) ->
             is_Some (st_heap st' (env (st_sess st)) !! k)) /\
  (count is_any_channel_close tr + sent st = sent st')%nat /\
  (forall x, In x tr -> is_signal x = true ->
     exists c sig, x = ESignal c sig /\ command (st_sess st') = Some c).
Proof.
  revert st. induction evs as [|ev evs IH]; intros st.
  - cbn. repeat split; auto. intros x [].
  - cbn zeta. rewrite run_events_cons. cbn [fst snd].
    destruct (step_frame_all st ev) as (F1 & F2 & F3 & F4 & F5 & F6 & F7 & F8).
    specialize (IH (fst (step order getenv st ev))). cbn zeta in IH.
    destruct IH as (I1 & I2 & I3 & I4 & I5 & I6 & I7 & I8).
    repeat split; try congruence; auto.
    + intros l Hl. rewrite I5 by congruence. apply F5. exact Hl.
    + intros k Hk. rewrite <- F1. apply I6. rewrite F1. apply F6. exact Hk.
    + rewrite count_app. lia.
    + intros x Hx Hs. apply in_app_or in Hx. destruct Hx as [Hx|Hx].
      * destruct (F8 x Hx Hs) as (c & sig & -> & Hc).
        exists c, sig. split; [reflexivity|].
        pose proof (run_command_kept order getenv (ev :: evs) st c Hc) as [K _].
        rewrite run_events_cons in K. exact K.
      * exact (I8 x Hx Hs).
Qed.

(** X17.  Whatever requests arrive and whenever the child is reaped, a
    session keeps its map reference, its channel and its shell path; once
    a pty-req has switched it to a pseudoterminal launch it stays so; it
    writes no map but its own env map, and it never removes a name from
    that map. *)
Theorem X17_session_frame (evs : list event) (st : state) :
  let st' := fst (run_events order getenv st evs) in
  env (st_sess st') = env (st_sess st) /\
  channel (st_sess st') = channel (st_sess st) /\
  shellPath (st_sess st') = shellPath (st_sess st) /\
  (allocPty (st_sess st) = true -> allocPty (st_sess st') = true) /\
  (forall l, l <> env (st_sess st) -> st_heap st' l = st_heap st l) /\
  (forall k, is_Some (st_heap st (env (st_sess st)) !! k) ->
             is_Some (st_heap st' (env (st_sess st)) !! k)).
Proof.
  intros st'. subst st'.
  destruct (run_frame evs st) as (H1 & H2 & H3 & H4 & H5 & H6 & _).
  repeat split; assumption.
Qed.

(** X18.  Over any sequence of requests and reaped children the channel
    is closed at most once, and it has been closed exactly when the
    session is complete; a session that is complete stays complete and
    never closes the channel again. *)
Theorem X18_channel_closed_once (evs : list event) (st : state) :
  let st' := fst (run_events order getenv st evs) in
  let tr := snd (run_events order getenv st evs) in
  (complete (st_sess st) = false ->
   (count is_any_channel_close tr <= 1)%nat /\
   (count is_any_channel_close tr = 1%nat <-> complete (st_sess st') = true)) /\
  (complete (st_sess st) = true ->
   count is_any_channel_close tr = 0%nat /\ complete (st_sess st') = true).
Proof.
  intros st' tr. subst st' tr.
  destruct (run_frame evs st) as (_ & _ & _ & _ & _ & _ & H & _).
  unfold sent in H. split; intros Hc; rewrite Hc in H;
    destruct (complete (st_sess (fst (run_events order getenv st evs))));
    try lia; repeat split; intros; try lia; try congruence.
Qed.

(** X19.  A signal is only ever delivered to the command the session
    has created: no sequence of requests makes the session signal
    anything before a command exists, or anything else than its own
    command. *)
Theorem X19_signals_reach_own_command (evs : list event) (st : state)
    (x : effect) :
  In x (snd (run_events order getenv st evs)) -> is_signal x = true ->
  exists c sig,
    x = ESignal c sig /\
    command (st_sess (fst (run_events order getenv st evs))) = Some c.
Proof.
  intros Hx Hs.
  destruct (run_frame evs st) as (_ & _ & _ & _ & _ & _ & _ & H).
  exact (H x Hx Hs).
Qed.

End Frames.

Lemma X17_session_frame_witness :
  let st := fst (handlePtyRequest (ptyRequestOf true "xterm" 80 24) fresh) in
  let evs := [Incoming (windowChangeRequest false 132 40) all_ok;
              Incoming (shellRequest true) all_ok; ChildReaped None] in
  allocPty (st_sess st) = true /\
  allocPty (st_sess (fst (run_events canonical_order daemon_env st evs))) = true /\
  env (st_sess (fst (run_events canonical_order daemon_env st evs))) = env (st_sess st).
Proof.
  intros st evs.
  destruct (X17_session_frame canonical_order daemon_env evs st)
    as (H1 & _ & _ & H4 & _).
  split; [reflexivity|]. split; [exact (H4 eq_refl) | exact H1].
Defined.

Lemma X18_channel_closed_once_witness :
  complete (st_sess fresh) = false /\
  (count is_any_channel_close (snd (run_fresh shell_then_reaped)) <= 1)%nat /\
  (count is_any_channel_close (snd (run_fresh shell_then_reaped)) = 1%nat
   <-> complete (st_sess (fst (run_fresh shell_then_reaped))) = true).
Proof.
  split; [reflexivity|].
  exact (proj1 (X18_channel_closed_once canonical_order daemon_env
                  shell_then_reaped fresh) eq_refl).
Defined.

Lemma X19_signals_reach_own_command_witness :
  let evs := [Incoming (shellRequest true) all_ok;
              Incoming (signalRequest true "TERM") all_ok] in
  let cmd := {| Path := "/bin/sh"; Args := ["/bin/sh"];
                Env := ["PATH=/bin:/usr/bin"; "LANG=en_US.UTF8";
                        "HOME=/home/vcap"; "USER=vcap"] |} in
  In (ESignal cmd 15) (snd (run_fresh evs)) /\
  is_signal (ESignal cmd 15) = true /\
  exists c sig,
    ESignal cmd 15 = ESignal c sig /\
    command (st_sess (fst (run_fresh evs))) = Some c.
Proof.
  intros evs cmd.
  assert (Hin : In (ESignal cmd 15) (snd (run_fresh evs)))
    by (vm_compute; tauto).
  split; [exact Hin|]. split; [reflexivity|].
  exact (X19_signals_reach_own_command canonical_order daemon_env evs fresh
           (ESignal cmd 15) Hin eq_refl).
Defined.

Lemma scpRegex_MatchString_spec_witness :
  scpRegex_MatchString "  scp -t /tmp" = true /\
  scpRegex_MatchString "scpx" = false.
Proof.
  split.
  - apply (proj2 (scpRegex_MatchString_spec "  scp -t /tmp")).
    exists "  ", " -t /tmp". split; [reflexivity|]. split; [reflexivity|].
    right. exists " "%char, "-t /tmp". split; reflexivity.
  - reflexivity.
Defined.
